(** * Verification of the ISR4331 IOS-XE boot-image validation workflow

    A shallow embedding of [verify.py] (class [CiscoISR4331]) and the
    properties of its four steps and of the orchestrator [run_validation].

    Text is a sequence of 8-bit characters read as the code points
    U+0000..U+00FF; the Python string methods used by the program
    ([splitlines], [split], [lower], [in], [<]) are embedded on that range. *)

From Stdlib Require Import List Bool Arith Lia NArith.
From Stdlib Require Import Strings.Ascii Strings.String.
From Stdlib Require Import Sorting.Sorted Sorting.Permutation.
Import ListNotations.

Set Implicit Arguments.

(** * Text *)

Module Text.

Definition str := list ascii.

(** A literal of the source. *)
Definition lit (s : string) : str := list_ascii_of_string s.

Definition code (c : ascii) : N := N_of_ascii c.

(** [str.isspace] on one character: the whitespace that [str.split()]
    with no argument splits on. *)
Definition is_space (c : ascii) : bool :=
  let n := code c in
  ((9 <=? n) && (n <=? 13) || (28 <=? n) && (n <=? 32)
   || (n =? 133) || (n =? 160))%N.

(** The line boundaries of [str.splitlines]. *)
Definition is_linebreak (c : ascii) : bool :=
  let n := code c in
  ((10 <=? n) && (n <=? 13) || (28 <=? n) && (n <=? 30) || (n =? 133))%N.

Definition CR : ascii := ascii_of_N 13.
Definition LF : ascii := ascii_of_N 10.

Definition is_cr (c : ascii) : bool := Ascii.eqb c CR.
Definition is_lf (c : ascii) : bool := Ascii.eqb c LF.

(** [str.splitlines()]: [cur] is the line being read, most recent character
    first.  A carriage return followed by a line feed is one boundary, and a
    text that ends in a boundary has no final empty line. *)
Fixpoint splitlines_from (cur : str) (s : str) : list str :=
  match s with
  | [] => match cur with [] => [] | _ => [rev cur] end
  | c :: s' =>
      if is_linebreak c then
        rev cur ::
          (if is_cr c then
             match s' with
             | d :: s'' => if is_lf d then splitlines_from [] s''
                           else splitlines_from [] s'
             | [] => splitlines_from [] s'
             end
           else splitlines_from [] s')
      else splitlines_from (c :: cur) s'
  end.

Definition splitlines (s : str) : list str := splitlines_from [] s.

(** [str.split()]: the maximal runs of non-whitespace characters. *)
Fixpoint split_from (cur : str) (s : str) : list str :=
  match s with
  | [] => match cur with [] => [] | _ => [rev cur] end
  | c :: s' =>
      if is_space c then
        match cur with
        | [] => split_from [] s'
        | _ => rev cur :: split_from [] s'
        end
      else split_from (c :: cur) s'
  end.

Definition split (s : str) : list str := split_from [] s.

(** [needle in hay] on strings. *)
Fixpoint starts_with (needle hay : str) : bool :=
  match needle, hay with
  | [], _ => true
  | _ :: _, [] => false
  | a :: n', b :: h' => Ascii.eqb a b && starts_with n' h'
  end.

Fixpoint contains (needle hay : str) : bool :=
  starts_with needle hay ||
  match hay with
  | [] => false
  | _ :: h' => contains needle h'
  end.

(** [str.lower()] on one character of the range: the Latin capital letters
    A..Z and U+00C0..U+00DE (U+00D7, the multiplication sign, apart) move up
    by 32. *)
Definition lower_char (c : ascii) : ascii :=
  let n := code c in
  if ((65 <=? n) && (n <=? 90)
      || (192 <=? n) && (n <=? 222) && negb (n =? 215))%N
  then ascii_of_N (n + 32) else c.

Definition lower (s : str) : str := map lower_char s.

(** Comparison of strings: code point by code point, a proper prefix first. *)
Fixpoint compare (a b : str) : comparison :=
  match a, b with
  | [], [] => Eq
  | [], _ :: _ => Lt
  | _ :: _, [] => Gt
  | x :: a', y :: b' =>
      match Ascii.compare x y with
      | Eq => compare a' b'
      | c => c
      end
  end.

(** [a < b] on strings. *)
Definition ltb (a b : str) : bool :=
  match compare a b with Lt => true | _ => false end.

Definition leb (a b : str) : bool :=
  match compare a b with Gt => false | _ => true end.

(** [list.sort(reverse=True)] on strings.  The result of the sort is the one
    descending arrangement of the list (see [sort_reverse_unique]); it is
    computed here by insertion, an element going in front of the first one
    that is not greater, so that equal elements keep their order. *)
Fixpoint insert_desc (x : str) (l : list str) : list str :=
  match l with
  | [] => [x]
  | y :: l' => if ltb x y then y :: insert_desc x l' else x :: l
  end.

Fixpoint sort_reverse (l : list str) : list str :=
  match l with
  | [] => []
  | x :: l' => insert_desc x (sort_reverse l')
  end.

(** A list in descending order: every element is at least every later one. *)
Definition descending (l : list str) : Prop :=
  StronglySorted (fun a b => leb b a = true) l.

(** A text free of whitespace. *)
Definition no_space (t : str) : bool := forallb (fun c => negb (is_space c)) t.

End Text.

(** * The program *)

Module Verify.
Import Text.

(** ** Exceptions, results and the observable events of a run *)

Inductive exn : Type :=
| NetmikoTimeoutException (msg : str)
| NetmikoAuthenticationException (msg : str)
| AttributeError (msg : str)
| IndexError (msg : str)
| OtherException (msg : str).

(** [str(e)] *)
Definition exn_str (e : exn) : str :=
  match e with
  | NetmikoTimeoutException m | NetmikoAuthenticationException m
  | AttributeError m | IndexError m | OtherException m => m
  end.

Inductive outcome (A : Type) : Type :=
| Ret (a : A)
| Raise (e : exn).
Arguments Ret {A} a.
Arguments Raise {A} e.

Inductive level : Type := DEBUG | INFO | ERROR.

Inductive event : Type :=
| Log (lvl : level) (msg : str)        (* a record handed to [logging] *)
| Print (msg : str)                    (* a line on standard output *)
| Opened                               (* [ConnectHandler] gave a session *)
| OpenFailed (e : exn)                 (* [ConnectHandler] raised *)
| Sent (cmd : str) (read_timeout : option nat)  (* a [send_command] call *)
| Closed.                              (* a [connection.disconnect] call *)

(** ** The object *)

Record Device : Type := {
  device_type : str;
  host : str;
  username : str;
  password : str
}.

(** The session transport (netmiko), which the program only calls: [W] is
    the state of everything outside the program (the device and the network),
    [H] the connection handle.  Each call may return or raise. *)
Record Transport (W H : Type) : Type := {
  ConnectHandler : Device -> W -> W * outcome H;
  send_command : H -> str -> option nat -> W -> W * outcome str;
  conn_disconnect : H -> W -> W * outcome unit
}.

Record CiscoISR4331 (H : Type) : Type := {
  device : Device;
  hostname : str;
  connection : option H;
  iosbootfile : option str
}.

(** [CiscoISR4331.__init__] *)
Definition init (H : Type) (hostname_ host_ username_ password_ : str)
  : CiscoISR4331 H :=
  {| device := {| device_type := lit "cisco_ios"; host := host_;
                  username := username_; password := password_ |};
     hostname := hostname_;
     connection := None;
     iosbootfile := None |}.

(** Truth value of [self.iosbootfile]: [None] and the empty string are
    false. *)
Definition truthy (o : option str) : bool :=
  match o with
  | None | Some [] => false
  | Some (_ :: _) => true
  end.

(** [f"{self.iosbootfile}"] *)
Definition fmt (o : option str) : str :=
  match o with
  | Some s => s
  | None => lit "None"
  end.

(** [line.split()[-1]] *)
Definition last_token (line : str) : outcome str :=
  match split line with
  | [] => Raise (IndexError (lit "list index out of range"))
  | t :: ts => Ret (last ts t)
  end.

(** The loop of [find_latest_iosxe_file] over the lines of the listing,
    [ios_files] being the list built so far. *)
Fixpoint collect_ios_files (lines : list str) (ios_files : list str)
  : outcome (list str) :=
  match lines with
  | [] => Ret ios_files
  | line :: rest =>
      if contains (lit ".bin") line then
        match last_token line with
        | Ret filename => collect_ios_files rest (ios_files ++ [filename])
        | Raise e => Raise e
        end
      else collect_ios_files rest ios_files
  end.

(** ** Computations: state of the object and of the world, events, errors *)

Section Program.

Variables W H : Type.
Variable T : Transport W H.

Record state : Type := {
  self : CiscoISR4331 H;
  world : W
}.

Record result (A : Type) : Type := {
  out : outcome A;
  final : state;
  events : list event
}.

Definition M (A : Type) : Type := state -> result A.

Definition ret {A} (a : A) : M A :=
  fun s => {| out := Ret a; final := s; events := [] |}.

Definition raise {A} (e : exn) : M A :=
  fun s => {| out := Raise e; final := s; events := [] |}.

Definition bind {A B} (m : M A) (k : A -> M B) : M B :=
  fun s =>
    match m s with
    | {| out := Ret a; final := s1; events := ev1 |} =>
        match k a s1 with
        | {| out := o; final := s2; events := ev2 |} =>
            {| out := o; final := s2; events := ev1 ++ ev2 |}
        end
    | {| out := Raise e; final := s1; events := ev1 |} =>
        {| out := Raise e; final := s1; events := ev1 |}
    end.

(** [try: m  except Exception as e: handler e] *)
Definition try_except {A} (m : M A) (handler : exn -> M A) : M A :=
  fun s =>
    match m s with
    | {| out := Ret a; final := s1; events := ev1 |} =>
        {| out := Ret a; final := s1; events := ev1 |}
    | {| out := Raise e; final := s1; events := ev1 |} =>
        match handler e s1 with
        | {| out := o; final := s2; events := ev2 |} =>
            {| out := o; final := s2; events := ev1 ++ ev2 |}
        end
    end.

Definition lift {A} (o : outcome A) : M A :=
  match o with
  | Ret a => ret a
  | Raise e => raise e
  end.

Definition emit (e : event) : M unit :=
  fun s => {| out := Ret tt; final := s; events := [e] |}.

Definition get_self : M (CiscoISR4331 H) :=
  fun s => {| out := Ret (self s); final := s; events := [] |}.

Definition with_connection (o : CiscoISR4331 H) (h : H) : CiscoISR4331 H :=
  {| device := device o; hostname := hostname o;
     connection := Some h; iosbootfile := iosbootfile o |}.

Definition with_iosbootfile (o : CiscoISR4331 H) (f : str) : CiscoISR4331 H :=
  {| device := device o; hostname := hostname o;
     connection := connection o; iosbootfile := Some f |}.

Definition with_world (s : state) (w : W) : state :=
  {| self := self s; world := w |}.

Definition with_self (s : state) (o : CiscoISR4331 H) : state :=
  {| self := o; world := world s |}.

(** [self.connection = h] *)
Definition set_connection (h : H) : M unit :=
  fun s => {| out := Ret tt; final := with_self s (with_connection (self s) h);
              events := [] |}.

(** [self.iosbootfile = f] *)
Definition set_iosbootfile (f : str) : M unit :=
  fun s => {| out := Ret tt; final := with_self s (with_iosbootfile (self s) f);
              events := [] |}.

Notation "x <- m ;; k" := (bind m (fun x => k))
  (at level 61, m at next level, right associativity).
Notation "m ;; k" := (bind m (fun _ => k))
  (at level 61, right associativity).

(** [logging.info], [logging.error], [logging.debug] and [print] *)
Definition log (lvl : level) (msg : str) : M unit := emit (Log lvl msg).
Definition print (msg : str) : M unit := emit (Print msg).

(** [ConnectHandler( **self.device )] *)
Definition call_ConnectHandler (d : Device) : M H :=
  fun s =>
    let (w, r) := ConnectHandler T d (world s) in
    {| out := r; final := with_world s w;
       events := [match r with Ret _ => Opened | Raise e => OpenFailed e end] |}.

(** [self.connection.send_command(cmd)], with [read_timeout] when given;
    on [None] the attribute lookup raises. *)
Definition call_send_command (c : option H) (cmd : str)
    (read_timeout : option nat) : M str :=
  match c with
  | None =>
      raise (AttributeError
               (lit "'NoneType' object has no attribute 'send_command'"))
  | Some h =>
      fun s =>
        let (w, r) := send_command T h cmd read_timeout (world s) in
        {| out := r; final := with_world s w;
           events := [Sent cmd read_timeout] |}
  end.

(** [self.connection.disconnect()] on a handle *)
Definition call_disconnect (h : H) : M unit :=
  fun s =>
    let (w, r) := conn_disconnect T h (world s) in
    {| out := r; final := with_world s w; events := [Closed] |}.

(** ** The methods *)

Definition connect : M bool :=
  self <- get_self ;;
  try_except
    (h <- call_ConnectHandler (device self) ;;
     set_connection h ;;
     log INFO (lit "Successfully connected to " ++ host (device self)) ;;
     ret true)
    (fun e =>
       match e with
       | NetmikoTimeoutException _ =>
           log ERROR (lit "Timeout error connecting to "
                      ++ host (device self)) ;;
           ret false
       | NetmikoAuthenticationException _ =>
           log ERROR (lit "Authentication error connecting to "
                      ++ host (device self)) ;;
           ret false
       | _ =>
           log ERROR (lit "Error connecting to " ++ host (device self)
                      ++ lit ": " ++ exn_str e) ;;
           ret false
       end).

(** [if self.connection:] holds once a handle is stored: a connection
    object of the transport is never false. *)
Definition disconnect : M unit :=
  self <- get_self ;;
  match connection self with
  | Some h =>
      call_disconnect h ;;
      log INFO (lit "Disconnected from " ++ host (device self))
  | None => ret tt
  end.

Definition find_latest_iosxe_file : M bool :=
  try_except
    (self <- get_self ;;
     output <- call_send_command (connection self) (lit "dir bootflash:")
                 None ;;
     log DEBUG (lit "Bootflash directory output: " ++ output) ;;
     ios_files <- lift (collect_ios_files (splitlines output) []) ;;
     match ios_files with
     | _ :: _ =>
         match sort_reverse ios_files with
         | first :: _ =>
             set_iosbootfile first ;;
             log INFO (lit "Latest IOS-XE image found: " ++ first) ;;
             ret true
         | [] => raise (IndexError (lit "list index out of range"))
         end
     | [] =>
         log ERROR (lit "No IOS-XE .bin files found in bootflash.") ;;
         ret false
     end)
    (fun e =>
       log ERROR (lit "Error finding latest IOS-XE file: " ++ exn_str e) ;;
       ret false).

Definition validate_boot_statement : M bool :=
  try_except
    (self <- get_self ;;
     if negb (truthy (iosbootfile self)) then
       log ERROR
         (lit "No latest IOS-XE image found to validate boot statement.") ;;
       ret false
     else
       output <- call_send_command (connection self)
                   (lit "show run | include boot system") None ;;
       log DEBUG (lit "Boot statement output: " ++ output) ;;
       let expected_boot :=
         lit "boot system flash bootflash:" ++ fmt (iosbootfile self) in
       if contains expected_boot output then
         log INFO (lit "Boot statement matches the latest IOS-XE image: "
                   ++ fmt (iosbootfile self)) ;;
         ret true
       else
         log ERROR (lit "Boot statement does not match the latest image: "
                    ++ fmt (iosbootfile self)) ;;
         ret false)
    (fun e =>
       log ERROR (lit "Error validating boot statement: " ++ exn_str e) ;;
       ret false).

Definition verify_ios_image_signature : M bool :=
  try_except
    (self <- get_self ;;
     if negb (truthy (iosbootfile self)) then
       log ERROR (lit "No latest IOS-XE image found to verify.") ;;
       ret false
     else
       output <- call_send_command (connection self)
                   (lit "verify bootflash:" ++ fmt (iosbootfile self))
                   (Some 1000) ;;
       log DEBUG (lit "Verification output for " ++ fmt (iosbootfile self)
                  ++ lit ": " ++ output) ;;
       if contains (lit "signature successfully") (lower output) then
         log INFO (lit "Image " ++ fmt (iosbootfile self)
                   ++ lit " verification successful.") ;;
         ret true
       else
         let error_msg :=
           lit "Error: Signature verification failed for "
           ++ fmt (iosbootfile self) ++ lit "." in
         log ERROR error_msg ;;
         print error_msg ;;
         ret false)
    (fun e =>
       log ERROR (lit "Error during image verification: " ++ exn_str e) ;;
       ret false).

Definition run_validation : M bool :=
  self <- get_self ;;
  connected <- connect ;;
  if connected then
    latest_file_found <- find_latest_iosxe_file ;;
    if latest_file_found then
      boot_valid <- validate_boot_statement ;;
      if boot_valid then
        signature_valid <- verify_ios_image_signature ;;
        disconnect ;;
        if signature_valid then
          log INFO (lit "Validation complete: All checks passed successfully on "
                    ++ hostname self ++ lit ".") ;;
          ret true
        else
          log ERROR (lit "Validation failed: Signature verification failed on "
                     ++ hostname self ++ lit ".") ;;
          ret false
      else
        log ERROR (lit "Validation failed: Boot statement does not match on "
                   ++ hostname self) ;;
        disconnect ;;
        ret false
    else
      log ERROR (lit "Validation failed: No valid IOS-XE image found on "
                 ++ hostname self ++ lit ".") ;;
      disconnect ;;
      ret false
  else
    log ERROR (lit "Connection to device failed, cannot run validation on "
               ++ hostname self ++ lit ".") ;;
    ret false.

End Program.

(** ** The commands and messages of the program *)

Definition dir_command : str := lit "dir bootflash:".
Definition show_command : str := lit "show run | include boot system".
Definition verify_command (f : str) : str := lit "verify bootflash:" ++ f.

(** The message of the handler that [connect] enters on [e]. *)
Definition connect_error (d : Device) (e : exn) : str :=
  match e with
  | NetmikoTimeoutException _ => lit "Timeout error connecting to " ++ host d
  | NetmikoAuthenticationException _ =>
      lit "Authentication error connecting to " ++ host d
  | _ => lit "Error connecting to " ++ host d ++ lit ": " ++ exn_str e
  end.

(** The message of a failed signature check. *)
Definition signature_error (f : str) : str :=
  lit "Error: Signature verification failed for " ++ f ++ lit ".".

(** ** What a run shows to the outside *)

(** The commands issued to the device, in order. *)
Definition commands (l : list event) : list str :=
  flat_map (fun e => match e with Sent c _ => [c] | _ => [] end) l.

(** The lines written to standard output, in order. *)
Definition printed (l : list event) : list str :=
  flat_map (fun e => match e with Print m => [m] | _ => [] end) l.

(** The number of sessions opened, and of calls that close one. *)
Definition opens (l : list event) : nat :=
  List.length (filter (fun e => match e with Opened => true | _ => false end) l).

Definition closes (l : list event) : nat :=
  List.length (filter (fun e => match e with Closed => true | _ => false end) l).

(** A step succeeded: it returned [True]. *)
Definition step_ok {W H : Type} (r : result W H bool) : bool :=
  match out r with
  | Ret true => true
  | _ => false
  end.

(** The summary of a step from state [s]: it returns (it never raises),
    opens and closes nothing, sends the commands [c], prints the lines [p],
    and leaves the session object in place. *)
Record step_summary {W H : Type} (s : state W H) (r : result W H bool)
    (c p : list str) : Prop := {
  sum_returns : exists b, out r = Ret b;
  sum_commands : commands (events r) = c;
  sum_printed : printed (events r) = p;
  sum_opens : opens (events r) = 0;
  sum_closes : closes (events r) = 0;
  sum_connection : connection (self (final r)) = connection (self s)
}.

(** The outcome of a run that closes the session, with result [d], and then
    returns [b]. *)
Definition close_then {W H : Type} (d : result W H unit) (b : bool)
  : outcome bool :=
  match out d with
  | Ret _ => Ret b
  | Raise e => Raise e
  end.

(** A list of log records only. *)
Definition only_logs (l : list event) : Prop :=
  Forall (fun e => match e with Log _ _ => True | _ => False end) l.

(** ** The components as the specification words them *)

(** The candidate image set: from each line that contains the marker, the
    final whitespace-delimited token. *)
Definition final_token (line : str) : str := last (split line) [].

Definition candidate_image_set (listing : str) : list str :=
  map final_token (filter (contains (lit ".bin")) (splitlines listing)).

(** The text has the line [l]. *)
Definition has_line (l text : str) : Prop := In l (splitlines text).

(** The boot statement for an image. *)
Definition boot_statement (x : str) : str :=
  lit "boot system flash bootflash:" ++ x.

(** [text] contains [phrase] up to the case of letters: some substring of
    it has the same characters once both are folded to lower case. *)
Definition contains_ignoring_case (phrase text : str) : Prop :=
  exists a w b, text = a ++ w ++ b /\ lower w = lower phrase.

(** ** The log of a run *)

(** The messages of the records of level [ERROR], in order. *)
Definition errors (l : list event) : list str :=
  flat_map (fun e => match e with Log ERROR m => [m] | _ => [] end) l.

(** The commands with the [read_timeout] each was sent with. *)
Definition sent (l : list event) : list (str * option nat) :=
  flat_map (fun e => match e with Sent c t => [(c, t)] | _ => [] end) l.

(** The records that [run_validation] itself writes, for the object named
    [hn]. *)
Definition connection_failed (hn : str) : event :=
  Log ERROR (lit "Connection to device failed, cannot run validation on "
             ++ hn ++ lit ".").

Definition no_image_found (hn : str) : event :=
  Log ERROR (lit "Validation failed: No valid IOS-XE image found on "
             ++ hn ++ lit ".").

Definition boot_mismatch (hn : str) : event :=
  Log ERROR (lit "Validation failed: Boot statement does not match on " ++ hn).

Definition verdict (hn : str) (signature_valid : bool) : event :=
  if signature_valid then
    Log INFO (lit "Validation complete: All checks passed successfully on "
              ++ hn ++ lit ".")
  else
    Log ERROR (lit "Validation failed: Signature verification failed on "
               ++ hn ++ lit ".").

(** What a step keeps of the object, and what it writes at level
    [ERROR]: nothing when it passes, one record when it does not. *)
Record step_effects {W H : Type} (s : state W H) (r : result W H bool)
  : Prop := {
  eff_device : device (self (final r)) = device (self s);
  eff_hostname : hostname (self (final r)) = hostname (self s);
  eff_failed : step_ok r = false -> self (final r) = self s;
  eff_passed : step_ok r = true -> errors (events r) = [];
  eff_error : step_ok r = false -> exists m, errors (events r) = [m]
}.

(** Two states of the same target in the same world: they may differ in
    what earlier calls left in [connection] and [iosbootfile]. *)
Definition same_target {W H : Type} (s s' : state W H) : Prop :=
  device (self s) = device (self s')
  /\ hostname (self s) = hostname (self s')
  /\ world s = world s'.

(** ** Sample devices *)

Definition str_eqb (a b : str) : bool :=
  match compare a b with Eq => true | _ => false end.

(** A text given line by line, each line ended by a line feed. *)
Definition text_of_lines (l : list string) : str :=
  List.concat (map (fun x => lit x ++ [LF]) l).

(** A transport without state.  Opening gives [opening], closing gives
    [closing], and a command is answered by [reply]. *)
Definition scripted (opening : outcome unit) (reply : str -> outcome str)
    (closing : outcome unit) : Transport unit unit :=
  {| ConnectHandler := fun _ w => (w, opening);
     send_command := fun _ cmd _ w => (w, reply cmd);
     conn_disconnect := fun _ w => (w, closing) |}.

(** The answers of a router with the given directory listing, boot
    configuration and output of [verify]; any other command raises. *)
Definition router_reply (listing config verification : str) (cmd : str)
  : outcome str :=
  if str_eqb cmd dir_command then Ret listing
  else if str_eqb cmd show_command then Ret config
  else if starts_with (lit "verify bootflash:") cmd then Ret verification
  else Raise (OtherException (lit "Pattern not detected")).

(** The object of the example at the end of the source, and the state in
    which a run on it starts. *)
Definition howdy : CiscoISR4331 unit :=
  init unit (lit "howdy") (lit "127.0.0.1") (lit "MyUser") (lit "MyPass").

Definition start : state unit unit := {| self := howdy; world := tt |}.

(** The same object with a session, as [connect] leaves it. *)
Definition connected : state unit unit :=
  {| self := with_connection howdy tt; world := tt |}.

(** The same object with a session and a selected image, as the first two
    steps leave it. *)
Definition with_image (f : str) : state unit unit :=
  {| self := with_iosbootfile (with_connection howdy tt) f; world := tt |}.

Definition two_images : str :=
  text_of_lines
    ["Directory of bootflash:/";
     "   11  -rw-  704955824  Jun 10 2021 11:23:12 +00:00  isr4300-17.03.04.bin";
     "   12  -rw-  784955824  Jan 12 2022 09:01:40 +00:00  isr4300-17.06.01.bin";
     "7451738112 bytes total (5312401408 bytes free)"]%string.

Definition one_image : str :=
  text_of_lines
    ["Directory of bootflash:/";
     "   11  -rw-  704955824  Jun 10 2021 11:23:12 +00:00  router-boot-03.bin";
     "7451738112 bytes total (5312401408 bytes free)"]%string.

Definition good_config : str :=
  text_of_lines ["boot system flash bootflash:router-boot-03.bin"]%string.

Definition good_verification : str :=
  text_of_lines
    ["Verifying file integrity of bootflash:router-boot-03.bin";
     "Embedded Hash   SHA1 : 5D9C4B5F2E7A";
     "Digital signature successfully verified in file bootflash:router-boot-03.bin"]%string.

(** A listing without an image, and the listing of the two images with
    its lines in another order and one of them twice. *)
Definition no_images : str :=
  text_of_lines
    ["Directory of bootflash:/";
     "   13  -rw-       4096  Mar 03 2022 10:15:02 +00:00  startup-config.txt";
     "7451738112 bytes total (5312401408 bytes free)"]%string.

Definition two_images_shuffled : str :=
  text_of_lines
    ["   12  -rw-  784955824  Jan 12 2022 09:01:40 +00:00  isr4300-17.06.01.bin";
     "   11  -rw-  704955824  Jun 10 2021 11:23:12 +00:00  isr4300-17.03.04.bin";
     "   14  -rw-  784955824  Jan 12 2022 09:01:40 +00:00  isr4300-17.06.01.bin"]%string.

(** A transport whose state is the directory listing of the device. *)
Definition device_with_listing : Transport str unit :=
  {| ConnectHandler := fun _ w => (w, Ret tt);
     send_command := fun _ cmd _ w => (w, router_reply w [] [] cmd);
     conn_disconnect := fun _ w => (w, Ret tt) |}.

(** An object with a session on such a device. *)
Definition connected_to (listing : str) : state str unit :=
  {| self := with_connection howdy tt; world := listing |}.

(** A transport on which every command fails. *)
Definition timing_out : Transport unit unit :=
  scripted (Ret tt)
    (fun _ => Raise (OtherException (lit "Pattern not detected")))
    (Ret tt).

(** A transport on which the listing and the configuration are answered
    and the verification command alone fails. *)
Definition verify_times_out : Transport unit unit :=
  scripted (Ret tt)
    (fun cmd =>
       if starts_with (lit "verify bootflash:") cmd
       then Raise (OtherException (lit "Pattern not detected"))
       else router_reply one_image
              (text_of_lines
                 ["boot system flash bootflash:router-boot-03.bin"]%string)
              [] cmd)
    (Ret tt).

Definition good_router : Transport unit unit :=
  scripted (Ret tt) (router_reply one_image good_config good_verification)
    (Ret tt).

(** The router that passes every check, with a closing call that raises;
    and the same with a configuration that boots another image. *)
Definition closing_raises : Transport unit unit :=
  scripted (Ret tt) (router_reply one_image good_config good_verification)
    (Raise (OtherException (lit "Socket is closed"))).

Definition closing_raises_other_boot : Transport unit unit :=
  scripted (Ret tt)
    (router_reply one_image
       (text_of_lines ["boot system flash bootflash:router-boot-02.bin"]%string)
       good_verification)
    (Raise (OtherException (lit "Socket is closed"))).

End Verify.

(** * Facts about text *)

Module TextFacts.
Import Text.

(** ** Substrings *)

Lemma starts_with_iff (n h : str) :
  starts_with n h = true <-> exists t, h = n ++ t.
Proof.
  revert h; induction n as [|a n IH]; intros h; simpl.
  - split; [intros _; now exists h | reflexivity].
  - destruct h as [|b h].
    + split; [discriminate | intros [t Ht]; discriminate].
    + rewrite andb_true_iff, Ascii.eqb_eq, IH. split.
      * intros [-> [t ->]]. now exists t.
      * intros [t Ht]. injection Ht as -> ->. split; [reflexivity | now exists t].
Qed.

Lemma contains_iff (n h : str) :
  contains n h = true <-> exists a b, h = a ++ n ++ b.
Proof.
  induction h as [|c h IH]; simpl.
  - rewrite orb_false_r, starts_with_iff. split.
    + intros [t Ht]. now exists [], t.
    + intros [a [b Hab]]. destruct a; simpl in Hab.
      * now exists b.
      * discriminate.
  - rewrite orb_true_iff, starts_with_iff, IH. split.
    + intros [[t Ht] | [a [b Hab]]].
      * now exists [], t.
      * exists (c :: a), b. simpl. now f_equal.
    + intros [a [b Hab]]. destruct a as [|c' a]; simpl in Hab.
      * left. now exists b.
      * right. injection Hab as -> ->. now exists a, b.
Qed.

Lemma contains_refl (n : str) : contains n n = true.
Proof. apply contains_iff. exists [], []. now rewrite app_nil_r. Qed.

Lemma contains_trans (a b c : str) :
  contains a b = true -> contains b c = true -> contains a c = true.
Proof.
  rewrite !contains_iff. intros [p [q ->]] [p' [q' ->]].
  exists (p' ++ p), (q ++ q'). now rewrite <- !app_assoc.
Qed.

Lemma contains_app (n a h b : str) :
  contains n h = true -> contains n (a ++ h ++ b) = true.
Proof.
  intros Hc. apply contains_trans with h; [exact Hc|].
  apply contains_iff. now exists a, b.
Qed.

(** ** Tokens of [split] *)

Lemma last_cons_default (A : Type) (t d : A) (ts : list A) :
  last (t :: ts) d = last ts t.
Proof.
  revert t d. induction ts as [|x ts IH]; intros t d; [reflexivity|].
  change (last (t :: x :: ts) d) with (last (x :: ts) d).
  now rewrite (IH x d), (IH x t).
Qed.

Lemma split_from_nil_iff (cur s : str) :
  split_from cur s = [] <-> cur = [] /\ forallb is_space s = true.
Proof.
  revert cur; induction s as [|c s IH]; intros cur; simpl.
  - destruct cur; split; easy.
  - destruct (is_space c) eqn:Hc; simpl.
    + destruct cur.
      * rewrite IH. tauto.
      * split; [discriminate | intros [? _]; discriminate].
    + rewrite IH. split; [intros [? _]; discriminate | intros [_ ?]; discriminate].
Qed.

Lemma split_nil_iff (s : str) :
  split s = [] <-> forallb is_space s = true.
Proof. unfold split. rewrite split_from_nil_iff. tauto. Qed.

(** Every token is non-empty and free of whitespace. *)
Lemma split_from_tokens (cur s t : str) :
  no_space cur = true ->
  In t (split_from cur s) -> t <> [] /\ no_space t = true.
Proof.
  revert cur; induction s as [|c s IH]; intros cur Hcur; simpl.
  - destruct cur as [|x cur]; [easy|]. intros [<- | []]. split.
    + intros E. apply (f_equal (@rev ascii)) in E.
      rewrite rev_involutive in E. discriminate.
    + unfold no_space in *. rewrite forallb_forall in *.
      intros y Hy. apply Hcur. now apply in_rev.
  - destruct (is_space c) eqn:Hc.
    + destruct cur as [|x cur].
      * now apply IH.
      * intros [<- | Hin]; [|now apply (IH [])]. split.
        -- intros E. apply (f_equal (@rev ascii)) in E.
           rewrite rev_involutive in E. discriminate.
        -- unfold no_space in *. rewrite forallb_forall in *.
           intros y Hy. apply Hcur. now apply in_rev.
    + apply IH. simpl. now rewrite Hc.
Qed.

Lemma split_tokens (s t : str) :
  In t (split s) -> t <> [] /\ no_space t = true.
Proof. now apply split_from_tokens. Qed.

(** A text without whitespace is one token. *)
Lemma split_from_no_space (cur w : str) :
  no_space w = true ->
  split_from cur w = match rev cur ++ w with [] => [] | t => [t] end.
Proof.
  revert cur; induction w as [|c w IH]; intros cur Hw; simpl in *.
  - rewrite app_nil_r. destruct cur as [|x cur]; [reflexivity|].
    destruct (rev (x :: cur)) eqn:E; [|reflexivity].
    apply (f_equal (@rev ascii)) in E. rewrite rev_involutive in E.
    discriminate.
  - apply andb_true_iff in Hw as [Hc Hw].
    apply negb_true_iff in Hc. rewrite Hc, IH by exact Hw.
    simpl. now rewrite <- app_assoc.
Qed.

(** The last token of a line that ends in a whitespace-free [w] ends in
    [w]. *)
Lemma split_from_last_suffix (cur s w : str) :
  w <> [] -> no_space w = true ->
  exists u, last (split_from cur (s ++ w)) [] = u ++ w.
Proof.
  intros Hne Hw. revert cur; induction s as [|c s IH]; intros cur; simpl.
  - rewrite split_from_no_space by exact Hw.
    destruct (rev cur ++ w) eqn:E.
    + apply app_eq_nil in E as [_ E]. contradiction.
    + rewrite <- E. now exists (rev cur).
  - destruct (is_space c).
    + destruct cur as [|x cur]; [apply IH|].
      destruct (IH []) as [u Hu].
      destruct (split_from [] (s ++ w)) eqn:E.
      * apply split_from_nil_iff in E as [_ E].
        rewrite forallb_app in E. apply andb_true_iff in E as [_ E].
        destruct w as [|y w]; [contradiction|]. simpl in E, Hw.
        apply andb_true_iff in E as [E _].
        apply andb_true_iff in Hw as [Hw _].
        rewrite E in Hw. discriminate.
      * exists u. rewrite <- Hu. reflexivity.
    + apply IH.
Qed.

(** ** Lines of [splitlines] *)

Lemma splitlines_from_substring (n : nat) :
  forall (cur s l : str), List.length s <= n ->
    In l (splitlines_from cur s) -> exists a b, rev cur ++ s = a ++ l ++ b.
Proof.
  induction n as [|n IH]; intros cur s l Hlen.
  - destruct s; [|simpl in Hlen; lia]. simpl.
    destruct cur as [|x cur]; [easy|]. intros [<- | []].
    exists [], []. now rewrite !app_nil_r.
  - destruct s as [|c s].
    + simpl. destruct cur as [|x cur]; [easy|]. intros [<- | []].
      exists [], []. now rewrite !app_nil_r.
    + simpl in Hlen. simpl.
      destruct (is_linebreak c).
      * intros [<- | Hin].
        { exists [], (c :: s). reflexivity. }
        assert (Hs : In l (splitlines_from [] s) ->
                     exists a b, rev cur ++ c :: s = a ++ l ++ b).
        { intros H0. apply IH in H0 as [a [b Hab]]; [|lia].
          simpl in Hab. exists (rev cur ++ c :: a), b.
          rewrite Hab, <- app_assoc. reflexivity. }
        destruct (is_cr c); [|now apply Hs].
        destruct s as [|d s']; [now apply Hs|].
        destruct (is_lf d); [|now apply Hs].
        apply IH in Hin as [a [b Hab]]; [|simpl in Hlen; lia].
        simpl in Hab. exists (rev cur ++ c :: d :: a), b.
        rewrite Hab, <- app_assoc. reflexivity.
      * intros Hin. apply IH in Hin as [a [b Hab]]; [|lia].
        exists a, b. rewrite <- Hab. simpl. now rewrite <- app_assoc.
Qed.

(** Every line of a text is a substring of it. *)
Lemma splitlines_contains (s l : str) :
  In l (splitlines s) -> contains l s = true.
Proof.
  intros Hin. apply contains_iff.
  apply (@splitlines_from_substring (List.length s) [] s l); [lia | exact Hin].
Qed.

(** ** Case folding *)

Lemma contains_lower_iff (n h : str) :
  contains n (lower h) = true <->
  exists a w b, h = a ++ w ++ b /\ lower w = n.
Proof.
  rewrite contains_iff. unfold lower. split.
  - intros [a' [b' E]].
    apply map_eq_app in E as [a [r [-> [_ E]]]].
    apply map_eq_app in E as [w [b [-> [E _]]]].
    now exists a, w, b.
  - intros [a [w [b [-> <-]]]].
    exists (map lower_char a), (map lower_char b).
    now rewrite !map_app.
Qed.

(** ** The order on strings *)

Lemma ascii_compare_refl (x : ascii) : Ascii.compare x x = Eq.
Proof. apply N.compare_refl. Qed.

Lemma compare_refl (a : str) : compare a a = Eq.
Proof.
  induction a as [|x a IH]; simpl; [reflexivity|].
  now rewrite ascii_compare_refl.
Qed.

Lemma compare_eq (a b : str) : compare a b = Eq -> a = b.
Proof.
  revert b; induction a as [|x a IH]; intros [|y b]; simpl; try easy.
  destruct (Ascii.compare x y) eqn:E; try discriminate.
  apply Ascii.compare_eq_iff in E. intros Hab. f_equal; auto.
Qed.

Lemma compare_antisym (a b : str) : compare a b = CompOpp (compare b a).
Proof.
  revert b; induction a as [|x a IH]; intros [|y b]; simpl; try reflexivity.
  rewrite Ascii.compare_antisym.
  destruct (Ascii.compare y x); simpl; auto.
Qed.

Lemma compare_lt_trans (a b c : str) :
  compare a b = Lt -> compare b c = Lt -> compare a c = Lt.
Proof.
  revert b c; induction a as [|x a IH]; intros [|y b] [|z c]; simpl;
    try easy.
  unfold Ascii.compare.
  destruct (N.compare_spec (N_of_ascii x) (N_of_ascii y)) as [E1|L1|G1];
    try discriminate;
  destruct (N.compare_spec (N_of_ascii y) (N_of_ascii z)) as [E2|L2|G2];
    try discriminate; intros H1 H2.
  - rewrite E1, E2, N.compare_refl. now apply IH with b.
  - assert ((N_of_ascii x ?= N_of_ascii z)%N = Lt) as ->
      by (apply N.compare_lt_iff; lia); reflexivity.
  - assert ((N_of_ascii x ?= N_of_ascii z)%N = Lt) as ->
      by (apply N.compare_lt_iff; lia); reflexivity.
  - assert ((N_of_ascii x ?= N_of_ascii z)%N = Lt) as ->
      by (apply N.compare_lt_iff; lia); reflexivity.
Qed.

Lemma leb_refl (a : str) : leb a a = true.
Proof. unfold leb. now rewrite compare_refl. Qed.

Lemma leb_antisym (a b : str) : leb a b = true -> leb b a = true -> a = b.
Proof.
  unfold leb. rewrite (compare_antisym b a).
  destruct (compare a b) eqn:E; simpl; try discriminate.
  intros _ _. now apply compare_eq.
Qed.

Lemma leb_total (a b : str) : leb a b = true \/ leb b a = true.
Proof.
  unfold leb. rewrite (compare_antisym b a).
  destruct (compare a b); simpl; auto.
Qed.

Lemma leb_trans (a b c : str) :
  leb a b = true -> leb b c = true -> leb a c = true.
Proof.
  unfold leb.
  destruct (compare a b) eqn:E1; try discriminate;
  destruct (compare b c) eqn:E2; try discriminate; intros _ _.
  - apply compare_eq in E1, E2. subst. now rewrite compare_refl.
  - apply compare_eq in E1. subst. now rewrite E2.
  - apply compare_eq in E2. subst. now rewrite E1.
  - now rewrite (compare_lt_trans _ _ _ E1 E2).
Qed.

Lemma ltb_false_leb (a b : str) : ltb a b = false -> leb b a = true.
Proof.
  unfold ltb, leb. rewrite (compare_antisym b a).
  destruct (compare a b); simpl; easy.
Qed.

Lemma ltb_true_leb (a b : str) : ltb a b = true -> leb a b = true.
Proof. unfold ltb, leb. destruct (compare a b); easy. Qed.

(** ** Sorting in reverse *)

Lemma insert_desc_perm (x : str) (l : list str) :
  Permutation (x :: l) (insert_desc x l).
Proof.
  induction l as [|y l IH]; simpl; [reflexivity|].
  destruct (ltb x y); [|reflexivity].
  rewrite perm_swap. now apply perm_skip.
Qed.

Lemma sort_reverse_perm (l : list str) : Permutation l (sort_reverse l).
Proof.
  induction l as [|x l IH]; simpl; [constructor|].
  rewrite <- insert_desc_perm. now apply perm_skip.
Qed.

Lemma insert_desc_descending (x : str) (l : list str) :
  descending l -> descending (insert_desc x l).
Proof.
  unfold descending. induction l as [|y l IH]; intros Hl; simpl.
  - repeat constructor.
  - inversion Hl as [|? ? Hl' Hy]; subst.
    destruct (ltb x y) eqn:E.
    + constructor; [now apply IH|].
      rewrite Forall_forall in *. intros z Hz.
      apply (Permutation_in _ (Permutation_sym (insert_desc_perm x l))) in Hz.
      destruct Hz as [<- | Hz]; [now apply ltb_true_leb | now apply Hy].
    + constructor; [exact Hl|].
      apply ltb_false_leb in E. constructor; [exact E|].
      rewrite Forall_forall in *. intros z Hz.
      apply leb_trans with y; [now apply Hy | exact E].
Qed.

Lemma sort_reverse_descending (l : list str) : descending (sort_reverse l).
Proof.
  induction l as [|x l IH]; simpl; [constructor|].
  now apply insert_desc_descending.
Qed.

(** The descending arrangement of a list is unique: whatever algorithm
    [list.sort(reverse=True)] runs, its result is [sort_reverse]. *)
Lemma descending_perm_eq (l1 l2 : list str) :
  descending l1 -> descending l2 -> Permutation l1 l2 -> l1 = l2.
Proof.
  unfold descending. revert l2; induction l1 as [|x l1 IH]; intros l2 H1 H2 P.
  - apply Permutation_nil in P. now subst.
  - destruct l2 as [|y l2].
    + apply Permutation_sym, Permutation_nil in P. discriminate.
    + inversion H1 as [|? ? H1' Hx]; inversion H2 as [|? ? H2' Hy]; subst.
      rewrite Forall_forall in Hx, Hy.
      assert (x = y) as ->.
      { assert (Hin1 : In x (y :: l2))
          by (apply (Permutation_in _ P); now left).
        assert (Hin2 : In y (x :: l1))
          by (apply (Permutation_in _ (Permutation_sym P)); now left).
        destruct Hin1 as [-> | Hin1]; [reflexivity|].
        destruct Hin2 as [-> | Hin2]; [reflexivity|].
        apply leb_antisym; [now apply Hy | now apply Hx]. }
      f_equal. apply IH; try assumption.
      now apply Permutation_cons_inv with y.
Qed.

Lemma sort_reverse_unique (l l' : list str) :
  Permutation l l' -> descending l' -> l' = sort_reverse l.
Proof.
  intros P D. apply descending_perm_eq; [exact D | apply sort_reverse_descending |].
  rewrite <- P. apply sort_reverse_perm.
Qed.

(** The first element of the sorted list is a greatest element of the
    list. *)
Lemma sort_reverse_head (l r : list str) (x : str) :
  sort_reverse l = x :: r ->
  In x l /\ forall y, In y l -> leb y x = true.
Proof.
  intros E. pose proof (sort_reverse_perm l) as P.
  pose proof (sort_reverse_descending l) as D. rewrite E in P, D.
  split.
  - apply (Permutation_in _ (Permutation_sym P)). now left.
  - intros y Hy. apply (Permutation_in _ P) in Hy.
    destruct Hy as [<- | Hy]; [apply leb_refl|].
    inversion D as [|? ? _ Hx]; subst. rewrite Forall_forall in Hx.
    now apply Hx.
Qed.

Lemma sort_reverse_nil_iff (l : list str) : sort_reverse l = [] <-> l = [].
Proof.
  split; [|now intros ->].
  intros E. pose proof (sort_reverse_perm l) as P. rewrite E in P.
  now apply Permutation_sym, Permutation_nil in P.
Qed.

End TextFacts.

(** * Facts about the program *)

Module VerifyFacts.
Import Text TextFacts Verify.

#[local] Arguments lit : simpl never.

(** ** The loop over the listing *)

(** A line that has the marker has a token: the full stop of the marker is
    not whitespace. *)
Lemma marker_line_has_token (line : str) :
  contains (lit ".bin") line = true -> split line <> [].
Proof.
  intros Hc E. apply split_nil_iff in E.
  apply contains_iff in Hc as [a [b ->]].
  rewrite forallb_app in E. apply andb_true_iff in E as [_ E].
  discriminate E.
Qed.

Lemma last_token_final (line : str) :
  split line <> [] -> last_token line = Ret (final_token line).
Proof.
  unfold last_token, final_token. destruct (split line) as [|t ts]; [easy|].
  intros _. now rewrite last_cons_default.
Qed.

Lemma collect_ios_files_eq (lines acc : list str) :
  collect_ios_files lines acc =
  Ret (acc ++ map final_token (filter (contains (lit ".bin")) lines)).
Proof.
  revert acc; induction lines as [|line rest IH]; intros acc; simpl.
  - now rewrite app_nil_r.
  - destruct (contains (lit ".bin") line) eqn:Hc.
    + rewrite last_token_final by now apply marker_line_has_token.
      rewrite IH. simpl. now rewrite <- app_assoc.
    + apply IH.
Qed.

Lemma last_In (A : Type) (l : list A) (d : A) : l <> [] -> In (last l d) l.
Proof.
  induction l as [|x l IH]; [easy|]. intros _.
  destruct l as [|y l]; [now left|].
  right. apply IH. discriminate.
Qed.

(** Where a candidate comes from. *)
Lemma candidate_origin (listing c : str) :
  In c (candidate_image_set listing) ->
  exists line, In line (splitlines listing)
               /\ contains (lit ".bin") line = true
               /\ c = final_token line /\ In c (split line).
Proof.
  unfold candidate_image_set. rewrite in_map_iff.
  intros [line [<- Hin]]. apply filter_In in Hin as [Hin Hc].
  exists line. repeat split; try assumption.
  apply last_In. now apply marker_line_has_token.
Qed.

Lemma candidate_not_empty (listing c : str) :
  In c (candidate_image_set listing) -> c <> [].
Proof.
  intros Hin. apply candidate_origin in Hin as [line [_ [_ [_ Hin]]]].
  now apply split_tokens in Hin.
Qed.

Lemma candidate_image_set_nil_iff (listing : str) :
  candidate_image_set listing = [] <->
  forall line, In line (splitlines listing) ->
               contains (lit ".bin") line = false.
Proof.
  unfold candidate_image_set. split.
  - intros E line Hin. destruct (contains (lit ".bin") line) eqn:Hc; [|easy].
    apply map_eq_nil in E.
    assert (In line (filter (contains (lit ".bin")) (splitlines listing)))
      as Hf by (apply filter_In; auto).
    rewrite E in Hf. destruct Hf.
  - intros Hall.
    destruct (filter (contains (lit ".bin")) (splitlines listing))
      as [|line ls] eqn:E; [reflexivity|].
    assert (In line (filter (contains (lit ".bin")) (splitlines listing)))
      as Hf by (rewrite E; now left).
    apply filter_In in Hf as [Hin Hc]. rewrite (Hall _ Hin) in Hc.
    discriminate.
Qed.

Lemma truthy_iff (o : option str) :
  truthy o = false <-> o = None \/ o = Some [].
Proof.
  destruct o as [[|c f]|]; simpl; split; auto; try discriminate.
  - intros [E|E]; discriminate.
Qed.

(** ** Observations distribute over a trace *)

Lemma commands_app (l l' : list event) :
  commands (l ++ l') = commands l ++ commands l'.
Proof. apply flat_map_app. Qed.

Lemma printed_app (l l' : list event) :
  printed (l ++ l') = printed l ++ printed l'.
Proof. apply flat_map_app. Qed.



Lemma only_logs_silent (l : list event) :
  only_logs l ->
  commands l = [] /\ printed l = [] /\ opens l = 0 /\ closes l = 0.
Proof.
  induction 1 as [|e l He _ IH]; [easy|].
  destruct e; try contradiction. exact IH.
Qed.

(** ** The steps, one equation each *)

Section Steps.

Variables W H : Type.
Variable T : Transport W H.

Implicit Types s : state W H.

Lemma connect_eq s :
  connect T s =
  match ConnectHandler T (device (self s)) (world s) with
  | (w, Ret h) =>
      {| out := Ret true;
         final := with_self (with_world s w) (with_connection (self s) h);
         events := [Opened;
                    Log INFO (lit "Successfully connected to "
                              ++ host (device (self s)))] |}
  | (w, Raise e) =>
      {| out := Ret false; final := with_world s w;
         events := [OpenFailed e;
                    Log ERROR (connect_error (device (self s)) e)] |}
  end.
Proof.
  unfold connect, bind, try_except, get_self, call_ConnectHandler. simpl.
  destruct (ConnectHandler T (device (self s)) (world s)) as [w [h|e]]; simpl.
  - reflexivity.
  - destruct e; reflexivity.
Qed.

Lemma disconnect_eq s :
  disconnect T s =
  match connection (self s) with
  | Some h =>
      match conn_disconnect T h (world s) with
      | (w, Ret _) =>
          {| out := Ret tt; final := with_world s w;
             events := [Closed;
                        Log INFO (lit "Disconnected from "
                                  ++ host (device (self s)))] |}
      | (w, Raise e) =>
          {| out := Raise e; final := with_world s w; events := [Closed] |}
      end
  | None => {| out := Ret tt; final := s; events := [] |}
  end.
Proof.
  unfold disconnect, bind, get_self, call_disconnect. simpl.
  destruct (connection (self s)) as [h|]; [|reflexivity]. simpl.
  destruct (conn_disconnect T h (world s)) as [w [[]|e]]; reflexivity.
Qed.

Lemma find_latest_iosxe_file_eq s (h : H) :
  connection (self s) = Some h ->
  find_latest_iosxe_file T s =
  match send_command T h dir_command None (world s) with
  | (w, Ret output) =>
      match sort_reverse (candidate_image_set output) with
      | first :: _ =>
          {| out := Ret true;
             final := with_self (with_world s w)
                        (with_iosbootfile (self s) first);
             events := [Sent dir_command None;
                        Log DEBUG (lit "Bootflash directory output: "
                                   ++ output);
                        Log INFO (lit "Latest IOS-XE image found: "
                                  ++ first)] |}
      | [] =>
          {| out := Ret false; final := with_world s w;
             events := [Sent dir_command None;
                        Log DEBUG (lit "Bootflash directory output: "
                                   ++ output);
                        Log ERROR
                          (lit "No IOS-XE .bin files found in bootflash.")] |}
      end
  | (w, Raise e) =>
      {| out := Ret false; final := with_world s w;
         events := [Sent dir_command None;
                    Log ERROR (lit "Error finding latest IOS-XE file: "
                               ++ exn_str e)] |}
  end.
Proof.
  intros Hc.
  unfold find_latest_iosxe_file, bind, try_except, get_self,
    call_send_command, dir_command. simpl. rewrite Hc.
  destruct (send_command T h (lit "dir bootflash:") None (world s))
    as [w [output|e]]; simpl; [|reflexivity].
  rewrite collect_ios_files_eq. simpl.
  change (map final_token (filter (contains (lit ".bin")) (splitlines output)))
    with (candidate_image_set output).
  destruct (candidate_image_set output) as [|c cs] eqn:E; [reflexivity|].
  destruct (sort_reverse (c :: cs)) as [|first rest] eqn:E'.
  - apply (proj1 (sort_reverse_nil_iff _)) in E'. discriminate E'.
  - reflexivity.
Qed.

(** With no session object, a step that needs one fails on the attribute
    lookup, inside its own handler. *)
Lemma find_latest_iosxe_file_no_connection s :
  connection (self s) = None ->
  out (find_latest_iosxe_file T s) = Ret false
  /\ final (find_latest_iosxe_file T s) = s
  /\ commands (events (find_latest_iosxe_file T s)) = [].
Proof.
  intros Hc.
  unfold find_latest_iosxe_file, bind, try_except, get_self,
    call_send_command. simpl. rewrite Hc. simpl. auto.
Qed.

Lemma validate_boot_statement_absent s :
  truthy (iosbootfile (self s)) = false ->
  validate_boot_statement T s =
  {| out := Ret false; final := s;
     events := [Log ERROR
                  (lit "No latest IOS-XE image found to validate boot statement.")] |}.
Proof.
  intros Ht.
  unfold validate_boot_statement, bind, try_except, get_self. simpl.
  rewrite Ht. reflexivity.
Qed.

Lemma validate_boot_statement_eq s (h : H) (f : str) :
  connection (self s) = Some h ->
  iosbootfile (self s) = Some f -> f <> [] ->
  validate_boot_statement T s =
  match send_command T h show_command None (world s) with
  | (w, Ret output) =>
      if contains (boot_statement f) output then
        {| out := Ret true; final := with_world s w;
           events := [Sent show_command None;
                      Log DEBUG (lit "Boot statement output: " ++ output);
                      Log INFO
                        (lit "Boot statement matches the latest IOS-XE image: "
                         ++ f)] |}
      else
        {| out := Ret false; final := with_world s w;
           events := [Sent show_command None;
                      Log DEBUG (lit "Boot statement output: " ++ output);
                      Log ERROR
                        (lit "Boot statement does not match the latest image: "
                         ++ f)] |}
  | (w, Raise e) =>
      {| out := Ret false; final := with_world s w;
         events := [Sent show_command None;
                    Log ERROR (lit "Error validating boot statement: "
                               ++ exn_str e)] |}
  end.
Proof.
  intros Hc Hf Hne.
  unfold validate_boot_statement, bind, try_except, get_self,
    call_send_command, show_command, boot_statement. simpl.
  rewrite Hc, Hf. destruct f as [|c f]; [contradiction|]. simpl.
  destruct (send_command T h (lit "show run | include boot system") None
              (world s)) as [w [output|e]]; simpl; [|reflexivity].
  destruct (contains _ output); reflexivity.
Qed.

Lemma validate_boot_statement_no_connection s :
  connection (self s) = None ->
  out (validate_boot_statement T s) = Ret false
  /\ final (validate_boot_statement T s) = s
  /\ commands (events (validate_boot_statement T s)) = [].
Proof.
  intros Hc.
  unfold validate_boot_statement, bind, try_except, get_self,
    call_send_command. simpl. rewrite Hc.
  destruct (truthy (iosbootfile (self s))); simpl; auto.
Qed.

Lemma verify_ios_image_signature_absent s :
  truthy (iosbootfile (self s)) = false ->
  verify_ios_image_signature T s =
  {| out := Ret false; final := s;
     events := [Log ERROR (lit "No latest IOS-XE image found to verify.")] |}.
Proof.
  intros Ht.
  unfold verify_ios_image_signature, bind, try_except, get_self. simpl.
  rewrite Ht. reflexivity.
Qed.

Lemma verify_ios_image_signature_eq s (h : H) (f : str) :
  connection (self s) = Some h ->
  iosbootfile (self s) = Some f -> f <> [] ->
  verify_ios_image_signature T s =
  match send_command T h (verify_command f) (Some 1000) (world s) with
  | (w, Ret output) =>
      if contains (lit "signature successfully") (lower output) then
        {| out := Ret true; final := with_world s w;
           events := [Sent (verify_command f) (Some 1000);
                      Log DEBUG (lit "Verification output for " ++ f
                                 ++ lit ": " ++ output);
                      Log INFO (lit "Image " ++ f
                                ++ lit " verification successful.")] |}
      else
        {| out := Ret false; final := with_world s w;
           events := [Sent (verify_command f) (Some 1000);
                      Log DEBUG (lit "Verification output for " ++ f
                                 ++ lit ": " ++ output);
                      Log ERROR (signature_error f);
                      Print (signature_error f)] |}
  | (w, Raise e) =>
      {| out := Ret false; final := with_world s w;
         events := [Sent (verify_command f) (Some 1000);
                    Log ERROR (lit "Error during image verification: "
                               ++ exn_str e)] |}
  end.
Proof.
  intros Hc Hf Hne.
  unfold verify_ios_image_signature, bind, try_except, get_self,
    call_send_command, verify_command, signature_error. simpl.
  rewrite Hc, Hf. destruct f as [|c f]; [contradiction|]. simpl.
  destruct (send_command T h _ (Some 1000) (world s)) as [w [output|e]];
    simpl; [|reflexivity].
  destruct (contains _ (lower output)); reflexivity.
Qed.

Lemma verify_ios_image_signature_no_connection s :
  connection (self s) = None ->
  out (verify_ios_image_signature T s) = Ret false
  /\ final (verify_ios_image_signature T s) = s
  /\ commands (events (verify_ios_image_signature T s)) = []
  /\ printed (events (verify_ios_image_signature T s)) = [].
Proof.
  intros Hc.
  unfold verify_ios_image_signature, bind, try_except, get_self,
    call_send_command. simpl. rewrite Hc.
  destruct (truthy (iosbootfile (self s))); simpl; auto.
Qed.

(** ** What every step does, from any state *)

Lemma connect_summary s :
  commands (events (connect T s)) = []
  /\ printed (events (connect T s)) = []
  /\ closes (events (connect T s)) = 0
  /\ opens (events (connect T s))
     = (if step_ok (connect T s) then 1 else 0)
  /\ (step_ok (connect T s) = true ->
      exists h, connection (self (final (connect T s))) = Some h).
Proof.
  rewrite connect_eq.
  destruct (ConnectHandler T (device (self s)) (world s)) as [w [h|e]];
    simpl; repeat split; try discriminate; eauto.
Qed.

Lemma disconnect_summary s :
  commands (events (disconnect T s)) = []
  /\ printed (events (disconnect T s)) = []
  /\ opens (events (disconnect T s)) = 0
  /\ match connection (self s) with
     | Some _ => exists tail, events (disconnect T s) = Closed :: tail
                              /\ only_logs tail
     | None => events (disconnect T s) = []
     end.
Proof.
  rewrite disconnect_eq.
  destruct (connection (self s)) as [h|]; [|simpl; auto].
  destruct (conn_disconnect T h (world s)) as [w [[]|e]]; simpl;
    repeat split; eexists; split; try reflexivity; repeat constructor.
Qed.

Lemma find_latest_iosxe_file_summary s :
  step_summary s (find_latest_iosxe_file T s)
    (match connection (self s) with Some _ => [dir_command] | None => [] end)
    []
  /\ (step_ok (find_latest_iosxe_file T s) = true ->
      exists f, iosbootfile (self (final (find_latest_iosxe_file T s))) = Some f
                /\ f <> []).
Proof.
  destruct (connection (self s)) as [h|] eqn:Hc.
  - rewrite (find_latest_iosxe_file_eq s Hc).
    destruct (send_command T h dir_command None (world s)) as [w [output|e]].
    + destruct (sort_reverse (candidate_image_set output)) as [|first rest] eqn:E.
      * split; [split; simpl; eauto | discriminate].
      * split; [split; simpl; eauto|]. intros _. exists first. split; [reflexivity|].
        apply sort_reverse_head in E as [Hin _].
        now apply candidate_not_empty in Hin.
    + split; [split; simpl; eauto | discriminate].
  - unfold find_latest_iosxe_file, bind, try_except, get_self,
      call_send_command. simpl. rewrite Hc. simpl.
    split; [split; simpl; eauto | discriminate].
Qed.

Lemma validate_boot_statement_summary s :
  step_summary s (validate_boot_statement T s)
    (match connection (self s) with
     | Some _ => if truthy (iosbootfile (self s)) then [show_command] else []
     | None => []
     end)
    []
  /\ iosbootfile (self (final (validate_boot_statement T s)))
     = iosbootfile (self s)
  /\ (step_ok (validate_boot_statement T s) = true ->
      truthy (iosbootfile (self s)) = true).
Proof.
  destruct (truthy (iosbootfile (self s))) eqn:Ht.
  - destruct (connection (self s)) as [h|] eqn:Hc.
    + destruct (iosbootfile (self s)) as [[|c f]|] eqn:Hf; try discriminate.
      rewrite (@validate_boot_statement_eq s h (c :: f) Hc Hf) by discriminate.
      destruct (send_command T h show_command None (world s))
        as [w [output|e]].
      * destruct (contains (boot_statement (c :: f)) output);
          (split; [split; simpl; eauto | split; [simpl; auto | auto]]).
      * split; [split; simpl; eauto | split; [simpl; auto | auto]].
    + unfold validate_boot_statement, bind, try_except, get_self,
        call_send_command. simpl. rewrite Hc, Ht. simpl.
      split; [split; simpl; eauto | split; [simpl; auto | auto]].
  - rewrite (validate_boot_statement_absent s Ht).
    split; [split; simpl; eauto; now destruct (connection (self s)) | ].
    split; [reflexivity | discriminate].
Qed.

Lemma verify_ios_image_signature_summary s :
  exists p,
  step_summary s (verify_ios_image_signature T s)
    (match connection (self s) with
     | Some _ => if truthy (iosbootfile (self s))
                 then [verify_command (fmt (iosbootfile (self s)))] else []
     | None => []
     end)
    p.
Proof.
  destruct (truthy (iosbootfile (self s))) eqn:Ht.
  - destruct (connection (self s)) as [h|] eqn:Hc.
    + destruct (iosbootfile (self s)) as [[|c f]|] eqn:Hf; try discriminate.
      rewrite (@verify_ios_image_signature_eq s h (c :: f) Hc Hf)
        by discriminate.
      destruct (send_command T h (verify_command (c :: f)) (Some 1000)
                  (world s)) as [w [output|e]].
      * destruct (contains (lit "signature successfully") (lower output));
          eexists; split; simpl; eauto.
      * eexists; split; simpl; eauto.
    + unfold verify_ios_image_signature, bind, try_except, get_self,
        call_send_command. simpl. rewrite Hc, Ht. simpl.
      eexists; split; simpl; eauto.
  - rewrite (verify_ios_image_signature_absent s Ht).
    eexists; split; simpl; eauto. now destruct (connection (self s)).
Qed.

End Steps.

(** ** The orchestrator, path by path *)

#[local] Arguments connect : simpl never.
#[local] Arguments disconnect : simpl never.
#[local] Arguments find_latest_iosxe_file : simpl never.
#[local] Arguments validate_boot_statement : simpl never.
#[local] Arguments verify_ios_image_signature : simpl never.

Section Run.

Variables W H : Type.
Variable T : Transport W H.
Implicit Types s : state W H.

Lemma connect_returns s : exists b, out (connect T s) = Ret b.
Proof.
  rewrite connect_eq.
  destruct (ConnectHandler T (device (self s)) (world s)) as [w [h|e]];
    simpl; eauto.
Qed.

Lemma step_ok_out (r : result W H bool) :
  (exists b, out r = Ret b) -> out r = Ret (step_ok r).
Proof. unfold step_ok. intros [[|] ->]; reflexivity. Qed.

Lemma run_validation_paths s :
  let r1 := connect T s in
  let r2 := find_latest_iosxe_file T (final r1) in
  let r3 := validate_boot_statement T (final r2) in
  let r4 := verify_ios_image_signature T (final r3) in
  let r := run_validation T s in
  if step_ok r1 then
    if step_ok r2 then
      if step_ok r3 then
        let d := disconnect T (final r4) in
        out r = close_then d (step_ok r4)
        /\ exists tail, only_logs tail
             /\ events r = events r1 ++ events r2 ++ events r3 ++ events r4
                           ++ events d ++ tail
      else
        let d := disconnect T (final r3) in
        out r = close_then d false
        /\ exists m, events r = events r1 ++ events r2 ++ events r3
                               ++ Log ERROR m :: events d
    else
      let d := disconnect T (final r2) in
      out r = close_then d false
      /\ exists m, events r = events r1 ++ events r2 ++ Log ERROR m :: events d
  else
    out r = Ret false /\ exists m, events r = events r1 ++ [Log ERROR m].
Proof.
  cbv zeta.
  pose proof (connect_returns s) as R1.
  unfold run_validation, bind, get_self, log, emit, ret, close_then, step_ok.
  destruct (connect T s) as [o1 s1 ev1]. cbn [out final events] in *.
  destruct R1 as [b1 ->].
  destruct b1; [|split; [reflexivity | eexists; reflexivity]].
  pose proof (sum_returns (proj1 (find_latest_iosxe_file_summary T s1))) as R2.
  destruct (find_latest_iosxe_file T s1) as [o2 s2 ev2].
  cbn [out final events] in *.
  destruct R2 as [b2 ->]. destruct b2.
  - pose proof (sum_returns (proj1 (validate_boot_statement_summary T s2)))
      as R3.
    destruct (validate_boot_statement T s2) as [o3 s3 ev3].
    cbn [out final events] in *.
    destruct R3 as [b3 ->]. destruct b3.
    + destruct (verify_ios_image_signature_summary T s3) as [p S4].
      pose proof (sum_returns S4) as R4. clear S4.
      destruct (verify_ios_image_signature T s3) as [o4 s4 ev4].
      cbn [out final events] in *.
      destruct R4 as [b4 ->].
      destruct (disconnect T s4) as [[[]|e] s5 ev5]; cbn [out final events].
      * destruct b4; (split; [reflexivity|]); eexists;
          (split; [|reflexivity]); repeat constructor.
      * split; [reflexivity|]. exists []. split; [constructor|].
        now rewrite app_nil_r.
    + destruct (disconnect T s3) as [[[]|e] s5 ev5]; cbn [out final events];
        rewrite ?app_nil_r; (split; [reflexivity|]); eexists; reflexivity.
  - destruct (disconnect T s2) as [[[]|e] s5 ev5]; cbn [out final events];
      rewrite ?app_nil_r; (split; [reflexivity|]); eexists; reflexivity.
Qed.

End Run.

End VerifyFacts.

(** * The image selector *)

Module ImageSelector.
Import Text TextFacts Verify VerifyFacts.

#[local] Arguments lit : simpl never.

Section Selector.

Variables W H : Type.
Variable T : Transport W H.
Implicit Types s : state W H.

(** C3.  From a session whose directory command returns [listing], the image
    selector collects the final token of every line that has the marker,
    sorts the collection in descending order of the whole file names and
    selects the first: a greatest candidate.  It reports not-found exactly
    when no line has the marker.  When the candidates are the two names
    isr4300-17.03.04.bin and isr4300-17.06.01.bin, the selection is
    isr4300-17.06.01.bin. *)
Theorem find_latest_selects_greatest s (h : H) (w : W) (listing : str) :
  connection (self s) = Some h ->
  send_command T h dir_command None (world s) = (w, Ret listing) ->
  let r := find_latest_iosxe_file T s in
  let cands := candidate_image_set listing in
  collect_ios_files (splitlines listing) [] = Ret cands
  /\ descending (sort_reverse cands)
  /\ Permutation cands (sort_reverse cands)
  /\ (cands = [] <->
      forall line, In line (splitlines listing) ->
                   contains (lit ".bin") line = false)
  /\ match sort_reverse cands with
     | first :: _ =>
         out r = Ret true
         /\ iosbootfile (self (final r)) = Some first
         /\ In first cands
         /\ forall c, In c cands -> leb c first = true
     | [] =>
         cands = [] /\ out r = Ret false
         /\ iosbootfile (self (final r)) = iosbootfile (self s)
     end
  /\ ((forall c, In c cands <->
                 c = lit "isr4300-17.03.04.bin"
                 \/ c = lit "isr4300-17.06.01.bin") ->
      out r = Ret true
      /\ iosbootfile (self (final r)) = Some (lit "isr4300-17.06.01.bin")).
Proof.
  intros Hc Hsend r cands.
  assert (Hcore :
    match sort_reverse cands with
    | first :: _ =>
        out r = Ret true
        /\ iosbootfile (self (final r)) = Some first
        /\ In first cands
        /\ forall c, In c cands -> leb c first = true
    | [] =>
        cands = [] /\ out r = Ret false
        /\ iosbootfile (self (final r)) = iosbootfile (self s)
    end).
  { subst r. rewrite (find_latest_iosxe_file_eq T s Hc), Hsend.
    fold cands. destruct (sort_reverse cands) as [|first rest] eqn:E.
    - apply (proj1 (sort_reverse_nil_iff _)) in E. simpl. auto.
    - apply sort_reverse_head in E as [Hin Hmax]. simpl. auto. }
  split; [apply collect_ios_files_eq|].
  split; [apply sort_reverse_descending|].
  split; [apply sort_reverse_perm|].
  split; [apply candidate_image_set_nil_iff|].
  split; [exact Hcore|].
  intros Hset.
  destruct (sort_reverse cands) as [|first rest] eqn:E.
  - destruct Hcore as [Hnil _].
    assert (In (lit "isr4300-17.06.01.bin") cands) as Hin
      by (apply Hset; now right).
    rewrite Hnil in Hin. destruct Hin.
  - destruct Hcore as [Hout [Hfile [Hin Hmax]]].
    split; [exact Hout|]. rewrite Hfile. f_equal.
    apply Hset in Hin as [-> | ->]; [|reflexivity].
    assert (In (lit "isr4300-17.06.01.bin") cands) as Hin
      by (apply Hset; now right).
    apply Hmax in Hin. vm_compute in Hin. discriminate.
Qed.

End Selector.

(** The listing of a router with the two images. *)
Lemma find_latest_selects_greatest_witness :
  out (find_latest_iosxe_file
         (scripted (Ret tt) (router_reply two_images [] []) (Ret tt))
         connected) = Ret true
  /\ iosbootfile
       (self (final (find_latest_iosxe_file
                       (scripted (Ret tt) (router_reply two_images [] [])
                          (Ret tt))
                       connected)))
     = Some (lit "isr4300-17.06.01.bin").
Proof.
  apply (@find_latest_selects_greatest unit unit
           (scripted (Ret tt) (router_reply two_images [] []) (Ret tt))
           connected tt tt two_images).
  - reflexivity.
  - reflexivity.
  - intros c. vm_compute. split.
    + intros [<- | [<- | []]]; auto.
    + intros [-> | ->]; auto.
Defined.

(** The order is that of the characters, not of the version numbers:
    17.3 comes after 17.12. *)
Example find_latest_is_not_version_aware :
  let listing :=
    text_of_lines ["   11  -rw-  704955824  isr4300-17.3.bin";
                   "   12  -rw-  784955824  isr4300-17.12.bin"]%string in
  let r := find_latest_iosxe_file
             (scripted (Ret tt) (router_reply listing [] []) (Ret tt))
             connected in
  out r = Ret true
  /\ iosbootfile (self (final r)) = Some (lit "isr4300-17.3.bin").
Proof. vm_compute. split; reflexivity. Qed.

(** C10.  A line that has the marker has a character that is not
    whitespace, so it splits into at least one token and its last token is
    there to take; the loop over the lines of any listing runs to its end
    without an error. *)
Theorem final_token_extraction_total (listing line : str) :
  contains (lit ".bin") line = true ->
  (exists c, In c line /\ is_space c = false)
  /\ split line <> []
  /\ last_token line = Ret (final_token line)
  /\ In (final_token line) (split line)
  /\ exists files, collect_ios_files (splitlines listing) [] = Ret files.
Proof.
  intros Hc. pose proof (marker_line_has_token _ Hc) as Hne.
  split.
  - apply contains_iff in Hc as [a [b ->]]. exists "."%char. split.
    + apply in_or_app. right. now left.
    + reflexivity.
  - split; [exact Hne|]. split; [now apply last_token_final|].
    split; [now apply last_In|].
    eexists. apply collect_ios_files_eq.
Qed.

Lemma final_token_extraction_total_witness :
  last_token (lit "   12  -rw-  784955824  Jan 12 2022  isr4300-17.06.01.bin")
  = Ret (lit "isr4300-17.06.01.bin").
Proof.
  exact (proj1 (proj2 (proj2
           (@final_token_extraction_total two_images
              (lit "   12  -rw-  784955824  Jan 12 2022  isr4300-17.06.01.bin")
              eq_refl)))).
Defined.

(** C9, as the code has it.  Every candidate is the final token of a line
    of the listing that has the marker: a token of that line, not empty and
    free of whitespace.  The candidate has the marker itself whenever no
    whitespace follows an occurrence of the marker in its line. *)
Theorem candidate_is_final_token_of_marker_line (listing c : str)
    (files : list str) :
  collect_ios_files (splitlines listing) [] = Ret files ->
  In c files ->
  exists line,
    In line (splitlines listing)
    /\ contains (lit ".bin") line = true
    /\ c = final_token line
    /\ In c (split line)
    /\ c <> [] /\ no_space c = true
    /\ forall pre post,
         line = pre ++ lit ".bin" ++ post -> no_space post = true ->
         contains (lit ".bin") c = true.
Proof.
  rewrite collect_ios_files_eq. intros E Hin. injection E as <-.
  simpl in Hin. apply candidate_origin in Hin as [line [Hl [Hc [-> Ht]]]].
  exists line. repeat split; try assumption.
  - now apply split_tokens in Ht.
  - now apply split_tokens in Ht.
  - intros pre post -> Hpost.
    destruct (@split_from_last_suffix [] pre (lit ".bin" ++ post))
      as [u Hu].
    + discriminate.
    + unfold no_space in *. rewrite forallb_app, Hpost. reflexivity.
    + unfold final_token, split. rewrite Hu.
      apply contains_iff. now exists u, post.
Qed.

Lemma candidate_is_final_token_of_marker_line_witness :
  exists line,
    In line (splitlines two_images)
    /\ lit "isr4300-17.06.01.bin" = final_token line.
Proof.
  destruct (@candidate_is_final_token_of_marker_line two_images
              (lit "isr4300-17.06.01.bin")
              [lit "isr4300-17.03.04.bin"; lit "isr4300-17.06.01.bin"]
              eq_refl (or_intror (or_introl eq_refl)))
    as [line [Hl [_ [Hc _]]]].
  exists line. split; assumption.
Defined.

(** C9, as the specification words it, fails: in a line where another
    word follows the file name, the candidate is that word, and it has no
    marker. *)
Lemma candidate_without_marker :
  ~ (forall (listing c : str) (files : list str),
       collect_ios_files (splitlines listing) [] = Ret files ->
       In c files -> contains (lit ".bin") c = true).
Proof.
  intros Hall.
  specialize (Hall (lit "   12  -rw-  784955824  isr4300-17.06.01.bin (backup)")
                   (lit "(backup)") [lit "(backup)"] eq_refl
                   (or_introl eq_refl)).
  discriminate Hall.
Qed.

End ImageSelector.

(** * The boot-statement validator and the signature verifier *)

Module Checks.
Import Text TextFacts Verify VerifyFacts.

#[local] Arguments lit : simpl never.

Section Validator.

Variables W H : Type.
Variable T : Transport W H.
Implicit Types s : state W H.

(** C4, as the code has it.  With the selected image [f] and the text
    [config] returned by the configuration query, the validator passes
    exactly when the boot statement of [f] occurs in [config] as a substring,
    wherever in a line it stands.  So it passes when the statement is a line
    of [config], and fails when [config] does not contain it. *)
Theorem boot_statement_pass_iff_substring s (h : H) (f : str) (w : W)
    (config : str) :
  connection (self s) = Some h ->
  iosbootfile (self s) = Some f -> f <> [] ->
  send_command T h show_command None (world s) = (w, Ret config) ->
  let r := validate_boot_statement T s in
  out r = Ret (contains (boot_statement f) config)
  /\ (out r = Ret true <->
      exists before after, config = before ++ boot_statement f ++ after)
  /\ (has_line (boot_statement f) config -> out r = Ret true)
  /\ (contains (boot_statement f) config = false ->
      out r = Ret false /\ ~ has_line (boot_statement f) config).
Proof.
  intros Hc Hf Hne Hsend r.
  assert (Hout : out r = Ret (contains (boot_statement f) config)).
  { subst r. rewrite (validate_boot_statement_eq T s Hc Hf Hne), Hsend.
    destruct (contains (boot_statement f) config); reflexivity. }
  split; [exact Hout|]. rewrite Hout. split; [|split].
  - rewrite <- contains_iff. split.
    + intros E. now injection E.
    + now intros ->.
  - intros Hl. apply splitlines_contains in Hl. now rewrite Hl.
  - intros E. split; [now rewrite E|].
    intros Hl. apply splitlines_contains in Hl. rewrite Hl in E.
    discriminate.
Qed.

(** C5.  With the selected image [f] and the text [output] returned by the
    verification command, the verifier passes exactly when [output] contains
    the phrase "signature successfully" in some casing of its letters.
    When it does not, the verifier fails and writes one line to standard
    output; no other step writes there. *)
Theorem signature_pass_iff_phrase s (h : H) (f : str) (w : W) (output : str) :
  connection (self s) = Some h ->
  iosbootfile (self s) = Some f -> f <> [] ->
  send_command T h (verify_command f) (Some 1000) (world s)
  = (w, Ret output) ->
  let r := verify_ios_image_signature T s in
  let phrase := lit "signature successfully" in
  (out r = Ret true <-> contains_ignoring_case phrase output)
  /\ (contains_ignoring_case phrase output -> printed (events r) = [])
  /\ (~ contains_ignoring_case phrase output ->
      out r = Ret false /\ printed (events r) = [signature_error f])
  /\ (forall s', printed (events (connect T s')) = []
                 /\ printed (events (find_latest_iosxe_file T s')) = []
                 /\ printed (events (validate_boot_statement T s')) = []
                 /\ printed (events (disconnect T s')) = []).
Proof.
  intros Hc Hf Hne Hsend r phrase.
  assert (Hci : contains phrase (lower output) = true <->
                contains_ignoring_case phrase output)
    by apply contains_lower_iff.
  assert (Hothers :
    forall s', printed (events (connect T s')) = []
               /\ printed (events (find_latest_iosxe_file T s')) = []
               /\ printed (events (validate_boot_statement T s')) = []
               /\ printed (events (disconnect T s')) = []).
  { intros s'. split; [apply connect_summary|].
    split; [apply (proj1 (find_latest_iosxe_file_summary T s'))|].
    split; [apply (proj1 (validate_boot_statement_summary T s'))|].
    apply disconnect_summary. }
  subst r. rewrite (verify_ios_image_signature_eq T s Hc Hf Hne), Hsend.
  fold phrase. destruct (contains phrase (lower output)) eqn:E; simpl.
  - assert (Hp : contains_ignoring_case phrase output) by now apply Hci.
    split; [tauto|]. split; [reflexivity|]. split; [|exact Hothers].
    intros Hn. contradiction.
  - assert (Hn : ~ contains_ignoring_case phrase output).
    { intros Hp. apply Hci in Hp. discriminate. }
    split; [split; [discriminate | contradiction]|].
    split; [contradiction|]. split; [auto | exact Hothers].
Qed.

(** C6.  When the selected image is unset or empty, the validator and the
    verifier each return [False] at once: neither raises, neither sends a
    command, and the state of the object and of the device is as before;
    each leaves one record in the log and nothing else. *)
Theorem absent_image_fails_closed s :
  iosbootfile (self s) = None \/ iosbootfile (self s) = Some [] ->
  let rb := validate_boot_statement T s in
  let rv := verify_ios_image_signature T s in
  (out rb = Ret false /\ commands (events rb) = [] /\ final rb = s
   /\ only_logs (events rb))
  /\ (out rv = Ret false /\ commands (events rv) = [] /\ final rv = s
      /\ only_logs (events rv)).
Proof.
  intros Habs rb rv. apply truthy_iff in Habs. subst rb rv.
  rewrite (validate_boot_statement_absent T s Habs),
    (verify_ios_image_signature_absent T s Habs). simpl.
  repeat split; repeat constructor.
Qed.

End Validator.

Lemma boot_statement_pass_iff_substring_witness :
  out (validate_boot_statement good_router
         (with_image (lit "router-boot-03.bin"))) = Ret true.
Proof.
  destruct (@boot_statement_pass_iff_substring unit unit good_router
              (with_image (lit "router-boot-03.bin")) tt
              (lit "router-boot-03.bin") tt good_config) as [Ho _];
    [reflexivity | reflexivity | discriminate | reflexivity | exact Ho].
Defined.

(** C4, as the specification words it, fails: a configuration whose only
    boot statement names another file, one whose name begins with the name
    of the selected image, has no line that is the expected statement, and
    yet passes. *)
Lemma boot_statement_of_longer_name_passes :
  let config :=
    text_of_lines
      ["boot system flash bootflash:isr4300-17.06.01.bin.old"]%string in
  let T := scripted (Ret tt) (router_reply [] config []) (Ret tt) in
  let s := with_image (lit "isr4300-17.06.01.bin") in
  ~ has_line (boot_statement (lit "isr4300-17.06.01.bin")) config
  /\ out (validate_boot_statement T s) = Ret true.
Proof.
  split.
  - vm_compute. intros [E | []]. discriminate E.
  - vm_compute. reflexivity.
Qed.

Lemma signature_pass_iff_phrase_witness :
  out (verify_ios_image_signature good_router
         (with_image (lit "router-boot-03.bin"))) = Ret true
  <-> contains_ignoring_case (lit "signature successfully") good_verification.
Proof.
  destruct (@signature_pass_iff_phrase unit unit good_router
              (with_image (lit "router-boot-03.bin")) tt
              (lit "router-boot-03.bin") tt good_verification) as [Ho _];
    [reflexivity | reflexivity | discriminate | reflexivity | exact Ho].
Defined.

(** The success message of the device in three casings, and a message
    without the phrase. *)
Example signature_phrase_any_casing :
  forall before after : str,
    contains_ignoring_case (lit "signature successfully")
      (before ++ lit "Signature Successfully Validated" ++ after)
    /\ contains_ignoring_case (lit "signature successfully")
         (before ++ lit "SIGNATURE SUCCESSFULLY VALIDATED" ++ after)
    /\ contains_ignoring_case (lit "signature successfully")
         (before ++ lit "sIgNaTuRe sUcCeSsFuLlY validated" ++ after).
Proof.
  intros before after. repeat split.
  - exists before, (lit "Signature Successfully"), (lit " Validated" ++ after).
    split; reflexivity.
  - exists before, (lit "SIGNATURE SUCCESSFULLY"), (lit " VALIDATED" ++ after).
    split; reflexivity.
  - exists before, (lit "sIgNaTuRe sUcCeSsFuLlY"), (lit " validated" ++ after).
    split; reflexivity.
Qed.

Example signature_failure_is_printed :
  let T := scripted (Ret tt)
             (router_reply [] []
                (lit "%Error: digital signature verification failed"))
             (Ret tt) in
  let r := verify_ios_image_signature T
             (with_image (lit "router-boot-03.bin")) in
  out r = Ret false
  /\ printed (events r)
     = [lit "Error: Signature verification failed for router-boot-03.bin."].
Proof. vm_compute. split; reflexivity. Qed.

(** The containment test of the validator takes the statement anywhere in
    a line, and takes no other spacing of it. *)
Example boot_statement_not_anchored_not_normalized :
  let image := lit "router-boot-03.bin" in
  let check (config : string) :=
    out (validate_boot_statement
           (scripted (Ret tt) (router_reply [] (lit config) []) (Ret tt))
           (with_image image)) in
  (check "boot system flash bootflash:router-boot-03.bin" = Ret true
   /\ check "no boot system flash bootflash:router-boot-03.bin" = Ret true
   /\ check "boot system  flash bootflash:router-boot-03.bin" = Ret false
   /\ check "boot system flash bootflash:router-boot-02.bin" = Ret false
   /\ check EmptyString = Ret false)%string.
Proof. vm_compute. repeat split. Qed.

Lemma absent_image_fails_closed_witness :
  out (validate_boot_statement good_router start) = Ret false
  /\ out (verify_ios_image_signature good_router start) = Ret false.
Proof.
  destruct (@absent_image_fails_closed unit unit good_router start
              (or_introl eq_refl)) as [[Hb _] [Hv _]].
  split; assumption.
Defined.

End Checks.

(** * The orchestrator *)

Module Orchestrator.
Import Text TextFacts Verify VerifyFacts.

#[local] Arguments lit : simpl never.
#[local] Arguments connect : simpl never.
#[local] Arguments disconnect : simpl never.
#[local] Arguments find_latest_iosxe_file : simpl never.
#[local] Arguments validate_boot_statement : simpl never.
#[local] Arguments verify_ios_image_signature : simpl never.

Section Orchestration.

Variables W H : Type.
Variable T : Transport W H.
Implicit Types s : state W H.

Lemma close_then_cases (d : result W H unit) (b : bool) :
  match close_then d b with
  | Ret b' => b' = b
  | Raise e => out d = Raise e
  end.
Proof. unfold close_then. destruct (out d); reflexivity. Qed.

Lemma commands_log_disconnect s (m : str) :
  commands (Log ERROR m :: events (disconnect T s)) = [].
Proof. simpl. apply disconnect_summary. Qed.

(** The result of a run that returns: it is [True] exactly when session
    establishment, image selection, boot-statement validation and signature
    verification all succeed, each from the state the one before left.  A
    run that does not return a boolean is one whose closing of the session
    raised.  The commands sent are those of the steps up to and including
    the first one that fails, and no other. *)
Theorem run_validation_pass_iff s :
  let r1 := connect T s in
  let r2 := find_latest_iosxe_file T (final r1) in
  let r3 := validate_boot_statement T (final r2) in
  let r4 := verify_ios_image_signature T (final r3) in
  let r := run_validation T s in
  let all_ok := step_ok r1 && step_ok r2 && step_ok r3 && step_ok r4 in
  match out r with
  | Ret b => b = all_ok
  | Raise e =>
      step_ok r1 = true /\ exists s', out (disconnect T s') = Raise e
  end
  /\ commands (events r) =
     (if step_ok r1 then
        dir_command ::
        (if step_ok r2 then
           show_command ::
           (if step_ok r3 then
              [verify_command (fmt (iosbootfile (self (final r2))))]
            else [])
         else [])
      else []).
Proof.
  cbv zeta.
  pose proof (run_validation_paths T s) as P. cbv zeta in P.
  destruct (connect_summary T s) as [C1 [_ [_ [_ K1]]]].
  destruct (step_ok (connect T s)) eqn:O1; cbn [andb].
  2: { destruct P as [-> [m ->]]. split; [reflexivity|].
       now rewrite commands_app, C1. }
  destruct (K1 eq_refl) as [h Hh]. clear K1.
  destruct (find_latest_iosxe_file_summary T (final (connect T s)))
    as [S2 F2].
  pose proof (sum_commands S2) as C2. rewrite Hh in C2.
  pose proof (sum_connection S2) as K2. rewrite Hh in K2.
  destruct (step_ok (find_latest_iosxe_file T (final (connect T s))))
    eqn:O2; cbn [andb].
  2: { destruct P as [Po [m Pe]]. split.
       - rewrite Po. pose proof (close_then_cases
           (disconnect T (final (find_latest_iosxe_file T
                                   (final (connect T s))))) false) as Hd.
         destruct (close_then _ false); [exact Hd | eauto].
       - now rewrite Pe, !commands_app, C1, C2, commands_log_disconnect. }
  destruct (F2 eq_refl) as [f [Hf Hne]]. clear F2.
  set (s2 := final (find_latest_iosxe_file T (final (connect T s)))) in *.
  destruct (validate_boot_statement_summary T s2) as [S3 [I3 _]].
  pose proof (sum_commands S3) as C3.
  pose proof (sum_connection S3) as K3. rewrite K2 in C3, K3.
  assert (Ht : truthy (iosbootfile (self s2)) = true)
    by (rewrite Hf; destruct f; [contradiction | reflexivity]).
  rewrite Ht in C3.
  destruct (step_ok (validate_boot_statement T s2)) eqn:O3; cbn [andb].
  2: { destruct P as [Po [m Pe]]. split.
       - rewrite Po. pose proof (close_then_cases
           (disconnect T (final (validate_boot_statement T s2))) false)
           as Hd.
         destruct (close_then _ false); [exact Hd | eauto].
       - now rewrite Pe, !commands_app, C1, C2, C3, commands_log_disconnect. }
  set (s3 := final (validate_boot_statement T s2)) in *.
  destruct (verify_ios_image_signature_summary T s3) as [p S4].
  pose proof (sum_commands S4) as C4. rewrite K3, I3, Ht in C4.
  destruct P as [Po [tail [Hlogs Pe]]]. split.
  - rewrite Po. pose proof (close_then_cases
      (disconnect T (final (verify_ios_image_signature T s3)))
      (step_ok (verify_ios_image_signature T s3))) as Hd.
    destruct (close_then _ _); [exact Hd | eauto].
  - rewrite Pe, !commands_app, C1, C2, C3, C4.
    destruct (disconnect_summary T (final (verify_ios_image_signature T s3)))
      as [-> _].
    destruct (only_logs_silent Hlogs) as [-> _]. reflexivity.
Qed.



(** C7.  When the session cannot be established, whatever the error, the
    run returns [False], sends no command and closes nothing. *)
Theorem connect_failure_short_circuits s (w : W) (e : exn) :
  ConnectHandler T (device (self s)) (world s) = (w, Raise e) ->
  let r := run_validation T s in
  out r = Ret false
  /\ commands (events r) = []
  /\ opens (events r) = 0 /\ closes (events r) = 0
  /\ world (final r) = w.
Proof.
  intros Hopen. cbv zeta.
  pose proof (run_validation_paths T s) as P. cbv zeta in P.
  assert (E1 : connect T s =
               {| out := Ret false; final := with_world s w;
                  events := [OpenFailed e;
                             Log ERROR (connect_error (device (self s)) e)] |})
    by (rewrite connect_eq, Hopen; reflexivity).
  assert (Hw : world (final (run_validation T s)) = w).
  { unfold run_validation, bind, get_self. rewrite E1. reflexivity. }
  rewrite E1 in P. cbn [step_ok out events] in P.
  destruct P as [-> [m ->]]. simpl. auto.
Qed.

(** What remains of the absence of errors: a run raises only what the
    closing of the session raises.  With a transport whose closing call
    returns, every run returns a boolean. *)
Lemma run_validation_returns_if_close_returns s :
  (forall h w, exists w', conn_disconnect T h w = (w', Ret tt)) ->
  exists b, out (run_validation T s) = Ret b.
Proof.
  intros Hclose.
  assert (Hd : forall s' b, exists b', close_then (disconnect T s') b = Ret b').
  { intros s' b. unfold close_then. rewrite disconnect_eq.
    destruct (connection (self s')) as [h|]; [|simpl; eauto].
    destruct (Hclose h (world s')) as [w' ->]. simpl. eauto. }
  pose proof (run_validation_paths T s) as P. cbv zeta in P.
  destruct (step_ok (connect T s)); [|destruct P as [-> _]; eauto].
  destruct (step_ok (find_latest_iosxe_file T (final (connect T s))));
    [|destruct P as [-> _]; apply Hd].
  destruct (step_ok (validate_boot_statement T _));
    destruct P as [-> _]; apply Hd.
Qed.

End Orchestration.

(** The run of the example at the end of the source, on a router that
    holds one image, boots from it and verifies it: it passes, with one
    session opened and one closed. *)
Example end_to_end_pass :
  out (run_validation good_router start) = Ret true
  /\ opens (events (run_validation good_router start)) = 1
  /\ closes (events (run_validation good_router start)) = 1
  /\ commands (events (run_validation good_router start))
     = [dir_command; show_command;
        verify_command (lit "router-boot-03.bin")].
Proof. vm_compute. repeat split. Qed.

Lemma connect_failure_short_circuits_witness :
  out (run_validation
         (scripted (Raise (NetmikoTimeoutException (lit "TCP connection to device failed.")))
            (router_reply one_image good_config good_verification) (Ret tt))
         start) = Ret false.
Proof.
  destruct (@connect_failure_short_circuits unit unit
              (scripted (Raise (NetmikoTimeoutException
                                  (lit "TCP connection to device failed.")))
                 (router_reply one_image good_config good_verification)
                 (Ret tt))
              start tt
              (NetmikoTimeoutException (lit "TCP connection to device failed."))
              eq_refl) as [Ho _].
  exact Ho.
Defined.

(** C1 fails where the closing of the session raises.  On a router that
    passes every check, all four steps succeed and the run returns no
    [True]: the error of the closing call leaves it.  On the same router
    with a configuration that boots another image, the third step fails and
    the run returns no [False] either. *)
Theorem all_steps_pass_and_run_raises :
  let r1 := connect closing_raises start in
  let r2 := find_latest_iosxe_file closing_raises (final r1) in
  let r3 := validate_boot_statement closing_raises (final r2) in
  let r4 := verify_ios_image_signature closing_raises (final r3) in
  let q1 := connect closing_raises_other_boot start in
  let q2 := find_latest_iosxe_file closing_raises_other_boot (final q1) in
  let q3 := validate_boot_statement closing_raises_other_boot (final q2) in
  (step_ok r1 = true /\ step_ok r2 = true /\ step_ok r3 = true
   /\ step_ok r4 = true
   /\ out (run_validation closing_raises start)
      = Raise (OtherException (lit "Socket is closed"))
   /\ out (run_validation closing_raises start) <> Ret true)
  /\ (step_ok q1 = true /\ step_ok q2 = true /\ step_ok q3 = false
      /\ out (run_validation closing_raises_other_boot start)
         = Raise (OtherException (lit "Socket is closed"))
      /\ out (run_validation closing_raises_other_boot start) <> Ret false).
Proof. vm_compute. repeat split; discriminate. Qed.

(** C8 fails where the closing of the session raises: on a router that
    passes every check, the error of the closing call leaves the run. *)
Theorem run_validation_raises_when_close_raises :
  out (run_validation
         (scripted (Ret tt)
            (router_reply one_image good_config good_verification)
            (Raise (OtherException (lit "Socket is closed"))))
         start)
  = Raise (OtherException (lit "Socket is closed")).
Proof. vm_compute. reflexivity. Qed.

End Orchestrator.

(** * Further properties of the steps and of the run *)

Module Coverage.
Import Text TextFacts Verify VerifyFacts.

#[local] Arguments lit : simpl never.
#[local] Arguments connect : simpl never.
#[local] Arguments disconnect : simpl never.
#[local] Arguments find_latest_iosxe_file : simpl never.
#[local] Arguments validate_boot_statement : simpl never.
#[local] Arguments verify_ios_image_signature : simpl never.
#[local] Arguments run_validation : simpl never.

(** ** Tokens are parts of their line *)

Lemma split_from_substring (cur s t : str) :
  In t (split_from cur s) -> exists a b, rev cur ++ s = a ++ t ++ b.
Proof.
  revert cur; induction s as [|c s IH]; intros cur; simpl.
  - destruct cur as [|x cur]; [easy|]. intros [<- | []].
    exists [], []. now rewrite !app_nil_r.
  - destruct (is_space c).
    + destruct cur as [|x cur].
      * intros Hin. apply IH in Hin as [a [b Hab]]. simpl in Hab.
        exists (c :: a), b. simpl. now rewrite Hab.
      * intros [<- | Hin].
        -- now exists [], (c :: s).
        -- apply IH in Hin as [a [b Hab]]. simpl in Hab.
           exists (rev (x :: cur) ++ c :: a), b.
           rewrite Hab, <- app_assoc. reflexivity.
    + intros Hin. apply IH in Hin as [a [b Hab]].
      exists a, b. rewrite <- Hab. simpl. now rewrite <- app_assoc.
Qed.

Lemma split_token_contained (line t : str) :
  In t (split line) -> contains t line = true.
Proof.
  intros Hin. apply contains_iff. now apply (split_from_substring [] line).
Qed.

(** A candidate is written in the listing. *)
Lemma candidate_contained (listing c : str) :
  In c (candidate_image_set listing) -> contains c listing = true.
Proof.
  intros Hin. apply candidate_origin in Hin as [line [Hl [_ [_ Ht]]]].
  apply contains_trans with line.
  - now apply split_token_contained.
  - now apply splitlines_contains.
Qed.

Lemma errors_app (l l' : list event) :
  errors (l ++ l') = errors l ++ errors l'.
Proof. apply flat_map_app. Qed.

Lemma sent_app (l l' : list event) : sent (l ++ l') = sent l ++ sent l'.
Proof. apply flat_map_app. Qed.

(** The greatest element of a list depends on its elements only. *)
Lemma sort_reverse_head_same_elements (l l' : list str) :
  (forall c, In c l <-> In c l') ->
  hd_error (sort_reverse l) = hd_error (sort_reverse l').
Proof.
  intros Hsame.
  destruct (sort_reverse l) as [|x r] eqn:E;
    destruct (sort_reverse l') as [|x' r'] eqn:E'; simpl.
  - reflexivity.
  - apply (proj1 (sort_reverse_nil_iff _)) in E. subst l.
    apply sort_reverse_head in E' as [Hin _]. apply Hsame in Hin.
    destruct Hin.
  - apply (proj1 (sort_reverse_nil_iff _)) in E'. subst l'.
    apply sort_reverse_head in E as [Hin _]. apply Hsame in Hin.
    destruct Hin.
  - apply sort_reverse_head in E as [Hin Hmax].
    apply sort_reverse_head in E' as [Hin' Hmax'].
    f_equal. apply leb_antisym.
    + apply Hmax'. now apply Hsame.
    + apply Hmax. now apply Hsame.
Qed.

(** ** The steps in every case *)

Section StepCases.

Variables W H : Type.
Variable T : Transport W H.
Implicit Types s : state W H.

Lemma connect_effects s : step_effects s (connect T s).
Proof.
  rewrite connect_eq.
  destruct (ConnectHandler T (device (self s)) (world s)) as [w [h|e]];
    split; simpl; try reflexivity; try discriminate; eauto.
Qed.

Lemma find_latest_iosxe_file_effects s :
  step_effects s (find_latest_iosxe_file T s).
Proof.
  destruct (connection (self s)) as [h|] eqn:Hc.
  - rewrite (find_latest_iosxe_file_eq T s Hc).
    destruct (send_command T h dir_command None (world s)) as [w [output|e]].
    + destruct (sort_reverse (candidate_image_set output)) as [|first rest];
        split; simpl; try reflexivity; try discriminate; eauto.
    + split; simpl; try reflexivity; try discriminate; eauto.
  - unfold find_latest_iosxe_file, bind, try_except, get_self,
      call_send_command. simpl. rewrite Hc. simpl.
    split; simpl; try reflexivity; try discriminate; eauto.
Qed.

Lemma validate_boot_statement_unchanged s :
  self (final (validate_boot_statement T s)) = self s.
Proof.
  destruct (truthy (iosbootfile (self s))) eqn:Ht.
  - destruct (connection (self s)) as [h|] eqn:Hc.
    + destruct (iosbootfile (self s)) as [[|c f]|] eqn:Hf; try discriminate.
      rewrite (@validate_boot_statement_eq _ _ T s h (c :: f) Hc Hf)
        by discriminate.
      destruct (send_command T h show_command None (world s))
        as [w [output|e]]; [|reflexivity].
      destruct (contains (boot_statement (c :: f)) output); reflexivity.
    + now destruct (validate_boot_statement_no_connection T s Hc)
        as [_ [-> _]].
  - now rewrite (validate_boot_statement_absent T s Ht).
Qed.

Lemma validate_boot_statement_effects s :
  step_effects s (validate_boot_statement T s).
Proof.
  pose proof (validate_boot_statement_unchanged s) as Hself.
  split; try (now rewrite Hself).
  - destruct (truthy (iosbootfile (self s))) eqn:Ht.
    + destruct (connection (self s)) as [h|] eqn:Hc.
      * destruct (iosbootfile (self s)) as [[|c f]|] eqn:Hf;
          try discriminate.
        rewrite (@validate_boot_statement_eq _ _ T s h (c :: f) Hc Hf)
          by discriminate.
        destruct (send_command T h show_command None (world s))
          as [w [output|e]]; [|discriminate].
        destruct (contains (boot_statement (c :: f)) output);
          [reflexivity | discriminate].
      * destruct (validate_boot_statement_no_connection T s Hc) as [Ho _].
        unfold step_ok. rewrite Ho. discriminate.
    + rewrite (validate_boot_statement_absent T s Ht). discriminate.
  - destruct (truthy (iosbootfile (self s))) eqn:Ht.
    + destruct (connection (self s)) as [h|] eqn:Hc.
      * destruct (iosbootfile (self s)) as [[|c f]|] eqn:Hf;
          try discriminate.
        rewrite (@validate_boot_statement_eq _ _ T s h (c :: f) Hc Hf)
          by discriminate.
        destruct (send_command T h show_command None (world s))
          as [w [output|e]]; [|simpl; eauto].
        destruct (contains (boot_statement (c :: f)) output);
          [discriminate | simpl; eauto].
      * intros _.
        unfold validate_boot_statement, bind, try_except, get_self,
          call_send_command. simpl. rewrite Hc, Ht. simpl. eauto.
    + rewrite (validate_boot_statement_absent T s Ht). simpl. eauto.
Qed.

Lemma verify_ios_image_signature_unchanged s :
  self (final (verify_ios_image_signature T s)) = self s.
Proof.
  destruct (truthy (iosbootfile (self s))) eqn:Ht.
  - destruct (connection (self s)) as [h|] eqn:Hc.
    + destruct (iosbootfile (self s)) as [[|c f]|] eqn:Hf; try discriminate.
      rewrite (@verify_ios_image_signature_eq _ _ T s h (c :: f) Hc Hf)
        by discriminate.
      destruct (send_command T h (verify_command (c :: f)) (Some 1000)
                  (world s)) as [w [output|e]]; [|reflexivity].
      destruct (contains (lit "signature successfully") (lower output));
        reflexivity.
    + now destruct (verify_ios_image_signature_no_connection T s Hc)
        as [_ [-> _]].
  - now rewrite (verify_ios_image_signature_absent T s Ht).
Qed.

(** The verifier prints nothing, or it fails and prints its one message. *)
Lemma verify_ios_image_signature_effects s :
  step_effects s (verify_ios_image_signature T s)
  /\ (printed (events (verify_ios_image_signature T s)) = []
      \/ (step_ok (verify_ios_image_signature T s) = false
          /\ printed (events (verify_ios_image_signature T s))
             = [signature_error (fmt (iosbootfile (self s)))])).
Proof.
  pose proof (verify_ios_image_signature_unchanged s) as Hself.
  destruct (truthy (iosbootfile (self s))) eqn:Ht.
  - destruct (connection (self s)) as [h|] eqn:Hc.
    + destruct (iosbootfile (self s)) as [[|c f]|] eqn:Hf; try discriminate.
      revert Hself.
      rewrite (@verify_ios_image_signature_eq _ _ T s h (c :: f) Hc Hf)
        by discriminate.
      destruct (send_command T h (verify_command (c :: f)) (Some 1000)
                  (world s)) as [w [output|e]].
      * destruct (contains (lit "signature successfully") (lower output));
          intros Hself; (split; [split|]); simpl in *; try (now rewrite Hself);
          try reflexivity; try discriminate; eauto.
      * intros Hself; (split; [split|]); simpl in *; try (now rewrite Hself);
          try reflexivity; try discriminate; eauto.
    + revert Hself.
      unfold verify_ios_image_signature, bind, try_except, get_self,
        call_send_command. simpl. rewrite Hc, Ht. simpl.
      intros _; (split; [split|]); simpl; try reflexivity; try discriminate;
        eauto.
  - revert Hself. rewrite (verify_ios_image_signature_absent T s Ht).
    intros _; (split; [split|]); simpl; try reflexivity; try discriminate;
      eauto.
Qed.

Lemma disconnect_unchanged s :
  self (final (disconnect T s)) = self s
  /\ errors (events (disconnect T s)) = []
  /\ closes (events (disconnect T s))
     = match connection (self s) with Some _ => 1 | None => 0 end.
Proof.
  rewrite disconnect_eq.
  destruct (connection (self s)) as [h|]; [|simpl; auto].
  destruct (conn_disconnect T h (world s)) as [w [[]|e]]; simpl; auto.
Qed.

(** ** Properties of the single steps *)

(** X1.  [connect] never raises.  It returns [True] exactly when
    [ConnectHandler] returns a session, and then stores that session in the
    object; whatever [ConnectHandler] raises, [connect] returns [False] and
    leaves the object as it was, a session stored by an earlier call
    included.  It never touches the selected image, sends no command, closes
    nothing and prints nothing. *)
Theorem connect_true_iff_session_opened s :
  let r := connect T s in
  (exists b, out r = Ret b)
  /\ (out r = Ret true <->
      exists w h, ConnectHandler T (device (self s)) (world s) = (w, Ret h)
                  /\ self (final r) = with_connection (self s) h
                  /\ world (final r) = w)
  /\ (out r = Ret false <->
      exists w e, ConnectHandler T (device (self s)) (world s) = (w, Raise e)
                  /\ self (final r) = self s
                  /\ world (final r) = w)
  /\ iosbootfile (self (final r)) = iosbootfile (self s)
  /\ commands (events r) = []
  /\ closes (events r) = 0
  /\ printed (events r) = [].
Proof.
  cbv zeta. rewrite connect_eq.
  destruct (ConnectHandler T (device (self s)) (world s)) as [w [h|e]];
    simpl.
  - repeat split; eauto; try discriminate.
    intros [w' [e [E _]]]. discriminate.
  - repeat split; eauto; try discriminate.
    intros [w' [h [E _]]]. discriminate.
Qed.

(** X2.  [disconnect] never changes the object: the session stays stored
    after it has been closed.  Without a stored session it does nothing at
    all; with one it makes exactly one closing call, and a second
    [disconnect] makes that call again. *)
Theorem disconnect_keeps_session_stored s :
  let r := disconnect T s in
  self (final r) = self s
  /\ closes (events r)
     = match connection (self s) with Some _ => 1 | None => 0 end
  /\ commands (events r) = []
  /\ match connection (self s) with
     | Some h => closes (events (disconnect T (final r))) = 1
     | None => r = {| out := Ret tt; final := s; events := [] |}
     end.
Proof.
  cbv zeta. destruct (disconnect_unchanged s) as [Hself [_ Hcl]].
  split; [exact Hself|]. split; [exact Hcl|].
  split; [apply disconnect_summary|].
  destruct (connection (self s)) as [h|] eqn:Hc.
  - destruct (disconnect_unchanged (final (disconnect T s)))
      as [_ [_ Hcl2]].
    now rewrite Hself, Hc in Hcl2.
  - now rewrite disconnect_eq, Hc.
Qed.

(** X3.  Called on an object that has no session, each of the three checks
    returns [False]: the error of reaching for the missing session stays
    inside the step.  Nothing is sent, nothing is printed, and the object and
    the device are as before. *)
Theorem steps_without_session_fail_closed s :
  connection (self s) = None ->
  (out (find_latest_iosxe_file T s) = Ret false
   /\ final (find_latest_iosxe_file T s) = s
   /\ commands (events (find_latest_iosxe_file T s)) = []
   /\ printed (events (find_latest_iosxe_file T s)) = [])
  /\ (out (validate_boot_statement T s) = Ret false
      /\ final (validate_boot_statement T s) = s
      /\ commands (events (validate_boot_statement T s)) = []
      /\ printed (events (validate_boot_statement T s)) = [])
  /\ (out (verify_ios_image_signature T s) = Ret false
      /\ final (verify_ios_image_signature T s) = s
      /\ commands (events (verify_ios_image_signature T s)) = []
      /\ printed (events (verify_ios_image_signature T s)) = []).
Proof.
  intros Hc.
  destruct (find_latest_iosxe_file_no_connection T s Hc) as [F1 [F2 F3]].
  destruct (validate_boot_statement_no_connection T s Hc) as [B1 [B2 B3]].
  destruct (verify_ios_image_signature_no_connection T s Hc)
    as [V1 [V2 [V3 V4]]].
  pose proof (sum_printed (proj1 (find_latest_iosxe_file_summary T s))) as F4.
  pose proof (sum_printed (proj1 (validate_boot_statement_summary T s)))
    as B4.
  repeat split; assumption.
Qed.

(** X4.  [find_latest_iosxe_file] never raises and changes nothing of the
    object but the selected image, and that only when it returns [True]:
    after a search that fails, for want of an image or by an error, the
    object is as before, the image of an earlier search included. *)
Theorem find_changes_only_the_image s :
  let r := find_latest_iosxe_file T s in
  (exists b, out r = Ret b)
  /\ device (self (final r)) = device (self s)
  /\ hostname (self (final r)) = hostname (self s)
  /\ connection (self (final r)) = connection (self s)
  /\ if step_ok r
     then exists f, iosbootfile (self (final r)) = Some f
                    /\ truthy (Some f) = true
     else self (final r) = self s.
Proof.
  cbv zeta.
  destruct (find_latest_iosxe_file_summary T s) as [S F].
  pose proof (find_latest_iosxe_file_effects s) as E.
  split; [apply (sum_returns S)|]. split; [apply (eff_device E)|].
  split; [apply (eff_hostname E)|]. split; [apply (sum_connection S)|].
  destruct (step_ok (find_latest_iosxe_file T s)) eqn:O.
  - destruct (F eq_refl) as [f [Hf Hne]]. exists f. split; [exact Hf|].
    destruct f; [contradiction | reflexivity].
  - now apply (eff_failed E).
Qed.

(** X5.  The image that a successful search selects is written in the
    listing the device returned: it is a token of one of its lines that have
    the marker, so it is not empty, has no whitespace, and occurs in the
    listing character for character. *)
Theorem selected_image_is_written_in_listing s (h : H) (w : W)
    (listing : str) :
  connection (self s) = Some h ->
  send_command T h dir_command None (world s) = (w, Ret listing) ->
  out (find_latest_iosxe_file T s) = Ret true ->
  exists f line,
    iosbootfile (self (final (find_latest_iosxe_file T s))) = Some f
    /\ In line (splitlines listing)
    /\ contains (lit ".bin") line = true
    /\ In f (split line)
    /\ f <> [] /\ no_space f = true
    /\ contains f listing = true.
Proof.
  intros Hc Hsend. rewrite (find_latest_iosxe_file_eq T s Hc), Hsend.
  destruct (sort_reverse (candidate_image_set listing)) as [|f rest] eqn:E;
    simpl; [discriminate|]. intros _.
  apply sort_reverse_head in E as [Hin _].
  pose proof (candidate_contained _ _ Hin) as Hsub.
  apply candidate_origin in Hin as [line [Hl [Hm [_ Ht]]]].
  exists f, line. pose proof (split_tokens _ _ Ht) as [Hne Hns].
  repeat split; assumption.
Qed.

(** X6.  The selection depends on the names in the listing only, not on
    the order of its lines nor on how often a name is listed: two listings
    with the same candidates give the same result and the same image. *)
Theorem selection_ignores_order_and_repetition s s' (h h' : H) (w w' : W)
    (listing listing' : str) :
  connection (self s) = Some h ->
  connection (self s') = Some h' ->
  send_command T h dir_command None (world s) = (w, Ret listing) ->
  send_command T h' dir_command None (world s') = (w', Ret listing') ->
  (forall c, In c (candidate_image_set listing)
             <-> In c (candidate_image_set listing')) ->
  out (find_latest_iosxe_file T s) = out (find_latest_iosxe_file T s')
  /\ (out (find_latest_iosxe_file T s) = Ret true ->
      iosbootfile (self (final (find_latest_iosxe_file T s)))
      = iosbootfile (self (final (find_latest_iosxe_file T s')))).
Proof.
  intros Hc Hc' Hsend Hsend' Hsame.
  rewrite (find_latest_iosxe_file_eq T s Hc), Hsend,
    (find_latest_iosxe_file_eq T s' Hc'), Hsend'.
  pose proof (sort_reverse_head_same_elements _ _ Hsame) as Hhd.
  destruct (sort_reverse (candidate_image_set listing)) as [|f r];
    destruct (sort_reverse (candidate_image_set listing')) as [|f' r'];
    simpl in *; try discriminate.
  - split; [reflexivity | discriminate].
  - injection Hhd as ->. split; reflexivity.
Qed.

(** X7.  The boot-statement validator and the signature verifier only
    read: in every case, errors included, they return a boolean, leave the
    object exactly as it was, and open and close no session. *)
Theorem checks_leave_the_object s :
  (exists b, out (validate_boot_statement T s) = Ret b)
  /\ self (final (validate_boot_statement T s)) = self s
  /\ opens (events (validate_boot_statement T s)) = 0
  /\ closes (events (validate_boot_statement T s)) = 0
  /\ (exists b, out (verify_ios_image_signature T s) = Ret b)
  /\ self (final (verify_ios_image_signature T s)) = self s
  /\ opens (events (verify_ios_image_signature T s)) = 0
  /\ closes (events (verify_ios_image_signature T s)) = 0.
Proof.
  destruct (validate_boot_statement_summary T s) as [SB _].
  destruct (verify_ios_image_signature_summary T s) as [p SV].
  split; [apply (sum_returns SB)|].
  split; [apply validate_boot_statement_unchanged|].
  split; [apply (sum_opens SB)|]. split; [apply (sum_closes SB)|].
  split; [apply (sum_returns SV)|].
  split; [apply verify_ios_image_signature_unchanged|].
  split; [apply (sum_opens SV) | apply (sum_closes SV)].
Qed.

(** X8.  An error raised by the transport while a command is sent stays
    inside the step that sent it, each step on its own: the step returns
    [False], has sent that one command, leaves the object as it was, prints
    nothing, and writes one [ERROR] record that ends in the text of the
    error. *)
Theorem command_errors_are_absorbed s (h : H) :
  connection (self s) = Some h ->
  (forall (w : W) (e : exn),
     send_command T h dir_command None (world s) = (w, Raise e) ->
     find_latest_iosxe_file T s
     = {| out := Ret false; final := with_world s w;
          events := [Sent dir_command None;
                     Log ERROR (lit "Error finding latest IOS-XE file: "
                                ++ exn_str e)] |})
  /\ (forall (f : str) (w : W) (e : exn),
        iosbootfile (self s) = Some f -> f <> [] ->
        send_command T h show_command None (world s) = (w, Raise e) ->
        validate_boot_statement T s
        = {| out := Ret false; final := with_world s w;
             events := [Sent show_command None;
                        Log ERROR (lit "Error validating boot statement: "
                                   ++ exn_str e)] |})
  /\ (forall (f : str) (w : W) (e : exn),
        iosbootfile (self s) = Some f -> f <> [] ->
        send_command T h (verify_command f) (Some 1000) (world s)
        = (w, Raise e) ->
        verify_ios_image_signature T s
        = {| out := Ret false; final := with_world s w;
             events := [Sent (verify_command f) (Some 1000);
                        Log ERROR (lit "Error during image verification: "
                                   ++ exn_str e)] |}).
Proof.
  intros Hc. split; [|split].
  - intros w e S1. now rewrite (find_latest_iosxe_file_eq T s Hc), S1.
  - intros f w e Hf Hne S2.
    now rewrite (validate_boot_statement_eq T s Hc Hf Hne), S2.
  - intros f w e Hf Hne S3.
    now rewrite (verify_ios_image_signature_eq T s Hc Hf Hne), S3.
Qed.

End StepCases.

(** ** The run, record by record *)

Section RunCases.

Variables W H : Type.
Variable T : Transport W H.
Implicit Types s : state W H.

(** The run on each of its paths: outcome, final state and events, the
    records of [run_validation] itself spelled out. *)
Lemma run_validation_trace s :
  let hn := hostname (self s) in
  let r1 := connect T s in
  let r2 := find_latest_iosxe_file T (final r1) in
  let r3 := validate_boot_statement T (final r2) in
  let r4 := verify_ios_image_signature T (final r3) in
  let r := run_validation T s in
  if step_ok r1 then
    if step_ok r2 then
      if step_ok r3 then
        let d := disconnect T (final r4) in
        out r = close_then d (step_ok r4)
        /\ final r = final d
        /\ events r = events r1 ++ events r2 ++ events r3 ++ events r4
                      ++ events d
                      ++ match out d with
                         | Ret _ => [verdict hn (step_ok r4)]
                         | Raise _ => []
                         end
      else
        let d := disconnect T (final r3) in
        out r = close_then d false
        /\ final r = final d
        /\ events r = events r1 ++ events r2 ++ events r3
                      ++ boot_mismatch hn :: events d
    else
      let d := disconnect T (final r2) in
      out r = close_then d false
      /\ final r = final d
      /\ events r = events r1 ++ events r2 ++ no_image_found hn :: events d
  else
    out r = Ret false /\ final r = final r1
    /\ events r = events r1 ++ [connection_failed hn].
Proof.
  cbv zeta.
  pose proof (connect_returns T s) as R1.
  unfold run_validation, bind, get_self, log, emit, ret, close_then, step_ok,
    verdict, boot_mismatch, no_image_found, connection_failed.
  destruct (connect T s) as [o1 s1 ev1]. cbn [out final events] in *.
  destruct R1 as [b1 ->].
  destruct b1; [|repeat split].
  pose proof (sum_returns (proj1 (find_latest_iosxe_file_summary T s1))) as R2.
  destruct (find_latest_iosxe_file T s1) as [o2 s2 ev2].
  cbn [out final events] in *.
  destruct R2 as [b2 ->]. destruct b2.
  - pose proof (sum_returns (proj1 (validate_boot_statement_summary T s2)))
      as R3.
    destruct (validate_boot_statement T s2) as [o3 s3 ev3].
    cbn [out final events] in *.
    destruct R3 as [b3 ->]. destruct b3.
    + destruct (verify_ios_image_signature_summary T s3) as [p S4].
      pose proof (sum_returns S4) as R4. clear S4.
      destruct (verify_ios_image_signature T s3) as [o4 s4 ev4].
      cbn [out final events] in *.
      destruct R4 as [b4 ->].
      destruct (disconnect T s4) as [[[]|e] s5 ev5]; cbn [out final events].
      * destruct b4; repeat split.
      * rewrite app_nil_r. repeat split.
    + destruct (disconnect T s3) as [[[]|e] s5 ev5]; cbn [out final events];
        rewrite ?app_nil_r; repeat split.
  - destruct (disconnect T s2) as [[[]|e] s5 ev5]; cbn [out final events];
      rewrite ?app_nil_r; repeat split.
Qed.

(** ** The steps on two states of one target *)

Lemma connect_same_target s s' :
  same_target s s' ->
  out (connect T s) = out (connect T s')
  /\ events (connect T s) = events (connect T s')
  /\ same_target (final (connect T s)) (final (connect T s'))
  /\ (step_ok (connect T s) = true ->
      connection (self (final (connect T s)))
      = connection (self (final (connect T s')))).
Proof.
  intros [Hd [Hh Hw]]. rewrite !connect_eq, <- Hd, <- Hw.
  destruct (ConnectHandler T (device (self s)) (world s)) as [w [h|e]];
    simpl; unfold same_target; simpl; repeat split;
    try assumption; try reflexivity; try discriminate.
Qed.

Lemma find_same_target s s' (h : H) :
  same_target s s' ->
  connection (self s) = Some h -> connection (self s') = Some h ->
  out (find_latest_iosxe_file T s) = out (find_latest_iosxe_file T s')
  /\ events (find_latest_iosxe_file T s)
     = events (find_latest_iosxe_file T s')
  /\ same_target (final (find_latest_iosxe_file T s))
       (final (find_latest_iosxe_file T s'))
  /\ connection (self (final (find_latest_iosxe_file T s))) = Some h
  /\ connection (self (final (find_latest_iosxe_file T s'))) = Some h
  /\ (step_ok (find_latest_iosxe_file T s) = true ->
      final (find_latest_iosxe_file T s)
      = final (find_latest_iosxe_file T s')).
Proof.
  intros [Hd [Hh Hw]] Hc Hc'.
  rewrite (find_latest_iosxe_file_eq T s Hc),
    (find_latest_iosxe_file_eq T s' Hc'), <- Hw.
  destruct (send_command T h dir_command None (world s)) as [w [output|e]].
  - destruct (sort_reverse (candidate_image_set output)) as [|first rest];
      simpl; unfold same_target; simpl; repeat split;
      try assumption; try reflexivity; try discriminate.
    intros _. unfold with_self, with_world, with_iosbootfile. simpl.
    now rewrite Hd, Hh, Hc, Hc'.
  - simpl; unfold same_target; simpl; repeat split;
      try assumption; try reflexivity; try discriminate.
Qed.

Lemma disconnect_same_target s s' :
  same_target s s' -> connection (self s) = connection (self s') ->
  out (disconnect T s) = out (disconnect T s')
  /\ events (disconnect T s) = events (disconnect T s')
  /\ world (final (disconnect T s)) = world (final (disconnect T s')).
Proof.
  intros [Hd [Hh Hw]] Hc. rewrite !disconnect_eq, <- Hc, <- Hw, <- Hd.
  destruct (connection (self s)) as [h|]; [|simpl; auto].
  destruct (conn_disconnect T h (world s)) as [w [[]|e]]; simpl; auto.
Qed.

(** ** What each step sends, with its timeout *)

Lemma connect_sent s : sent (events (connect T s)) = [].
Proof.
  rewrite connect_eq.
  destruct (ConnectHandler T (device (self s)) (world s)) as [w [h|e]];
    reflexivity.
Qed.

Lemma disconnect_sent s : sent (events (disconnect T s)) = [].
Proof.
  rewrite disconnect_eq. destruct (connection (self s)) as [h|]; [|reflexivity].
  destruct (conn_disconnect T h (world s)) as [w [[]|e]]; reflexivity.
Qed.

Lemma find_latest_iosxe_file_sent s (h : H) :
  connection (self s) = Some h ->
  sent (events (find_latest_iosxe_file T s)) = [(dir_command, None)].
Proof.
  intros Hc. rewrite (find_latest_iosxe_file_eq T s Hc).
  destruct (send_command T h dir_command None (world s)) as [w [output|e]];
    [|reflexivity].
  destruct (sort_reverse (candidate_image_set output)); reflexivity.
Qed.

Lemma validate_boot_statement_sent s (h : H) (f : str) :
  connection (self s) = Some h ->
  iosbootfile (self s) = Some f -> f <> [] ->
  sent (events (validate_boot_statement T s)) = [(show_command, None)].
Proof.
  intros Hc Hf Hne. rewrite (validate_boot_statement_eq T s Hc Hf Hne).
  destruct (send_command T h show_command None (world s)) as [w [output|e]];
    [|reflexivity].
  destruct (contains (boot_statement f) output); reflexivity.
Qed.

Lemma verify_ios_image_signature_sent s (h : H) (f : str) :
  connection (self s) = Some h ->
  iosbootfile (self s) = Some f -> f <> [] ->
  sent (events (verify_ios_image_signature T s))
  = [(verify_command f, Some 1000)].
Proof.
  intros Hc Hf Hne. rewrite (verify_ios_image_signature_eq T s Hc Hf Hne).
  destruct (send_command T h (verify_command f) (Some 1000) (world s))
    as [w [output|e]]; [|reflexivity].
  destruct (contains (lit "signature successfully") (lower output));
    reflexivity.
Qed.

(** ** Properties of the run *)

(** X9.  A run does not depend on what earlier calls left in the object:
    from two states of the same target in the same world, whatever session
    and whatever image each still holds, [run_validation] has the same
    outcome, writes the same records, sends the same commands and leaves
    the device in the same state. *)
Theorem run_ignores_earlier_state s s' :
  same_target s s' ->
  out (run_validation T s) = out (run_validation T s')
  /\ events (run_validation T s) = events (run_validation T s')
  /\ world (final (run_validation T s))
     = world (final (run_validation T s')).
Proof.
  intros Hst.
  pose proof (run_validation_trace s) as P.
  pose proof (run_validation_trace s') as P'. cbv zeta in P, P'.
  destruct (connect_same_target Hst) as [Co [Ce [Cst Cc]]].
  assert (O1' : step_ok (connect T s') = step_ok (connect T s))
    by (unfold step_ok; now rewrite Co).
  destruct Hst as [_ [Hh _]]. rewrite <- Hh, O1', <- Ce in P'.
  destruct (connect_summary T s) as [_ [_ [_ [_ K1]]]].
  destruct (step_ok (connect T s)) eqn:O1.
  2: { destruct P as [-> [Pf ->]], P' as [-> [Pf' ->]].
       rewrite Pf, Pf'. repeat split. apply Cst. }
  destruct (K1 eq_refl) as [h Hc]. clear K1.
  pose proof (Cc eq_refl) as Hc'. rewrite Hc in Hc'. symmetry in Hc'.
  destruct (find_same_target Cst Hc Hc') as [Fo [Fe [Fst [Fc [Fc' Feq]]]]].
  assert (O2' : step_ok (find_latest_iosxe_file T (final (connect T s')))
                = step_ok (find_latest_iosxe_file T (final (connect T s))))
    by (unfold step_ok; now rewrite Fo).
  rewrite O2', <- Fe in P'.
  destruct (step_ok (find_latest_iosxe_file T (final (connect T s)))) eqn:O2.
  - rewrite <- (Feq eq_refl) in P'.
    destruct (step_ok (validate_boot_statement T _)).
    + destruct P as [-> [-> ->]], P' as [-> [-> ->]]. repeat split.
    + destruct P as [-> [-> ->]], P' as [-> [-> ->]]. repeat split.
  - assert (Hcc : connection (self (final (find_latest_iosxe_file T
                                              (final (connect T s)))))
                  = connection (self (final (find_latest_iosxe_file T
                                               (final (connect T s'))))))
      by now rewrite Fc, Fc'.
    destruct (disconnect_same_target Fst Hcc) as [Do [De Dw]].
    destruct P as [-> [-> ->]], P' as [-> [-> ->]].
    unfold close_then. rewrite Do, De, Dw. repeat split.
Qed.

(** X10.  The run as a function of what the device answers.  When the
    session opens, the listing has a candidate, both later commands are
    answered and the closing call returns, [run_validation] returns [True]
    exactly when the configuration contains the boot statement of the
    greatest candidate [f] and the output of [verify] for [f] contains the
    success phrase.  The image checked by both later steps is the one the
    first step selected; the verification command is sent only after the
    boot statement matched. *)
Theorem run_result_from_device_answers s (h : H) (w1 w2 w3 w4 : W)
    (listing config output f : str) (rest : list str) :
  ConnectHandler T (device (self s)) (world s) = (w1, Ret h) ->
  send_command T h dir_command None w1 = (w2, Ret listing) ->
  sort_reverse (candidate_image_set listing) = f :: rest ->
  send_command T h show_command None w2 = (w3, Ret config) ->
  send_command T h (verify_command f) (Some 1000) w3 = (w4, Ret output) ->
  (forall w, exists w', conn_disconnect T h w = (w', Ret tt)) ->
  let r := run_validation T s in
  let boot_valid := contains (boot_statement f) config in
  let signature_valid :=
    contains (lit "signature successfully") (lower output) in
  out r = Ret (boot_valid && signature_valid)
  /\ iosbootfile (self (final r)) = Some f
  /\ connection (self (final r)) = Some h
  /\ sent (events r)
     = (dir_command, None) :: (show_command, None)
       :: (if boot_valid then [(verify_command f, Some 1000)] else [])
  /\ opens (events r) = 1 /\ closes (events r) = 1.
Proof.
  intros Hopen Hdir Hsort Hshow Hverify Hclose. cbv zeta.
  assert (Hne : f <> []).
  { pose proof (sort_reverse_head _ Hsort) as [Hin _].
    now apply candidate_not_empty in Hin. }
  set (s1 := with_self (with_world s w1) (with_connection (self s) h)).
  set (s2 := with_self (with_world s1 w2) (with_iosbootfile (self s1) f)).
  assert (E1 : connect T s =
               {| out := Ret true; final := s1;
                  events := [Opened;
                             Log INFO (lit "Successfully connected to "
                                       ++ host (device (self s)))] |})
    by (rewrite connect_eq, Hopen; reflexivity).
  assert (E2 : find_latest_iosxe_file T s1 =
               {| out := Ret true; final := s2;
                  events := [Sent dir_command None;
                             Log DEBUG (lit "Bootflash directory output: "
                                        ++ listing);
                             Log INFO (lit "Latest IOS-XE image found: "
                                       ++ f)] |}).
  { rewrite (@find_latest_iosxe_file_eq _ _ T s1 h eq_refl).
    change (world s1) with w1. rewrite Hdir, Hsort. reflexivity. }
  pose proof (@validate_boot_statement_eq _ _ T s2 h f eq_refl eq_refl Hne)
    as E3.
  change (world s2) with w2 in E3. rewrite Hshow in E3.
  pose proof (@verify_ios_image_signature_eq _ _ T (with_world s2 w3) h f
                eq_refl eq_refl Hne) as E4.
  change (world (with_world s2 w3)) with w3 in E4. rewrite Hverify in E4.
  assert (D : forall s', connection (self s') = Some h ->
              exists w', disconnect T s' =
                {| out := Ret tt; final := with_world s' w';
                   events := [Closed;
                              Log INFO (lit "Disconnected from "
                                        ++ host (device (self s')))] |}).
  { intros s' Hc. rewrite disconnect_eq, Hc.
    destruct (Hclose (world s')) as [w' ->]. now exists w'. }
  unfold run_validation, bind, get_self, log, emit, ret.
  rewrite E1. cbn [out final events]. rewrite E2. cbn [out final events].
  rewrite E3. destruct (contains (boot_statement f) config).
  - cbn [out final events]. rewrite E4.
    destruct (D (with_world (with_world s2 w3) w4) eq_refl) as [w5 E5].
    destruct (contains (lit "signature successfully") (lower output));
      cbn [out final events]; rewrite E5; cbn [out final events];
      repeat split.
  - cbn [out final events].
    destruct (D (with_world s2 w3) eq_refl) as [w5 ->].
    cbn [out final events]. repeat split.
Qed.

(** X11.  When the session opens and no line of the listing has the
    marker, the run stops at the image search: the listing command is the
    only one sent, the session is closed once, nothing is printed, the
    object keeps the image it held before, and the run does not return
    [True]. *)
Theorem run_stops_without_image s (h : H) (w1 w2 : W) (listing : str) :
  ConnectHandler T (device (self s)) (world s) = (w1, Ret h) ->
  send_command T h dir_command None w1 = (w2, Ret listing) ->
  (forall line, In line (splitlines listing) ->
                contains (lit ".bin") line = false) ->
  let r := run_validation T s in
  out r <> Ret true
  /\ sent (events r) = [(dir_command, None)]
  /\ opens (events r) = 1 /\ closes (events r) = 1
  /\ printed (events r) = []
  /\ iosbootfile (self (final r)) = iosbootfile (self s)
  /\ connection (self (final r)) = Some h.
Proof.
  intros Hopen Hdir Hnone. cbv zeta.
  apply candidate_image_set_nil_iff in Hnone.
  set (s1 := with_self (with_world s w1) (with_connection (self s) h)).
  assert (E1 : connect T s =
               {| out := Ret true; final := s1;
                  events := [Opened;
                             Log INFO (lit "Successfully connected to "
                                       ++ host (device (self s)))] |})
    by (rewrite connect_eq, Hopen; reflexivity).
  pose proof (@find_latest_iosxe_file_eq _ _ T s1 h eq_refl) as E2.
  change (world s1) with w1 in E2. rewrite Hdir, Hnone in E2.
  cbn [sort_reverse] in E2.
  unfold run_validation, bind, get_self, log, emit, ret.
  rewrite E1. cbn [out final events]. rewrite E2. cbn [out final events].
  rewrite disconnect_eq. cbn [with_world self world s1 with_self
                               with_connection connection].
  destruct (conn_disconnect T h w2) as [w3 [[]|e]]; cbn [out final events];
    repeat split; discriminate.
Qed.

Lemma printed_log (lvl : level) (m : str) (l : list event) :
  printed (Log lvl m :: l) = printed l.
Proof. reflexivity. Qed.

Lemma sent_log (lvl : level) (m : str) (l : list event) :
  sent (Log lvl m :: l) = sent l.
Proof. reflexivity. Qed.

Lemma verdict_is_a_record (hn : str) (b : bool) :
  printed [verdict hn b] = [] /\ sent [verdict hn b] = []
  /\ (errors [verdict hn b] = [] <-> b = true).
Proof. destruct b; repeat split; discriminate. Qed.

Lemma errors_with_record (l l' : list event) (m : str) :
  errors (l ++ Log ERROR m :: l') <> [].
Proof.
  rewrite errors_app. simpl. intros E. apply app_eq_nil in E as [_ E].
  discriminate.
Qed.

Lemma close_then_returns (d : result W H unit) (b b' : bool) :
  close_then d b = Ret b' -> b' = b /\ exists u, out d = Ret u.
Proof.
  unfold close_then. destruct (out d) as [u|e]; [|discriminate].
  intros E. injection E as <-. eauto.
Qed.

(** X12.  The log tells the result: a run that returns has returned
    [True] exactly when it wrote no record of level [ERROR]. *)
Theorem run_passes_iff_log_has_no_error s (b : bool) :
  out (run_validation T s) = Ret b ->
  (b = true <-> errors (events (run_validation T s)) = []).
Proof.
  intros Hout.
  pose proof (run_validation_trace s) as P. cbv zeta in P.
  pose proof (connect_effects T s) as E1.
  pose proof (find_latest_iosxe_file_effects T (final (connect T s))) as E2.
  destruct (step_ok (connect T s)) eqn:O1.
  2: { destruct P as [Po [_ Pe]]. rewrite Po in Hout. injection Hout as <-.
       rewrite Pe. unfold connection_failed. split; [discriminate|].
       intros E. now apply errors_with_record in E. }
  destruct (step_ok (find_latest_iosxe_file T (final (connect T s)))) eqn:O2.
  2: { destruct P as [Po [_ Pe]]. rewrite Po in Hout.
       apply close_then_returns in Hout as [-> _].
       rewrite Pe, app_assoc. unfold no_image_found.
       split; [discriminate|]. intros E. now apply errors_with_record in E. }
  set (s2 := final (find_latest_iosxe_file T (final (connect T s)))) in *.
  pose proof (validate_boot_statement_effects T s2) as E3.
  destruct (step_ok (validate_boot_statement T s2)) eqn:O3.
  2: { destruct P as [Po [_ Pe]]. rewrite Po in Hout.
       apply close_then_returns in Hout as [-> _].
       rewrite Pe, !app_assoc. unfold boot_mismatch.
       split; [discriminate|]. intros E. now apply errors_with_record in E. }
  set (s3 := final (validate_boot_statement T s2)) in *.
  destruct (verify_ios_image_signature_effects T s3) as [E4 _].
  destruct P as [Po [_ Pe]]. rewrite Po in Hout.
  apply close_then_returns in Hout as [-> [u Hd]].
  rewrite Pe, Hd, !errors_app, (eff_passed E1 O1), (eff_passed E2 O2),
    (eff_passed E3 O3).
  destruct (disconnect_unchanged T (final (verify_ios_image_signature T s3)))
    as [_ [-> _]].
  cbn [app].
  destruct (verdict_is_a_record (hostname (self s))
              (step_ok (verify_ios_image_signature T s3))) as [_ [_ Hv]].
  destruct (step_ok (verify_ios_image_signature T s3)) eqn:O4.
  - rewrite (eff_passed E4 O4). cbn [app]. split; [intros _|reflexivity].
    now apply Hv.
  - split; [discriminate|].
    intros E. apply app_eq_nil in E as [_ E]. apply Hv in E. discriminate E.
Qed.

(** X13.  A run writes at most one line to standard output, the message
    of a failed signature check for the selected image, and only after the
    first three steps have passed and the fourth has not; such a run does
    not return [True]. *)
Theorem run_prints_only_a_failed_signature s :
  let r1 := connect T s in
  let r2 := find_latest_iosxe_file T (final r1) in
  let r3 := validate_boot_statement T (final r2) in
  let r4 := verify_ios_image_signature T (final r3) in
  let r := run_validation T s in
  printed (events r) = []
  \/ (step_ok r1 = true /\ step_ok r2 = true /\ step_ok r3 = true
      /\ step_ok r4 = false
      /\ out r <> Ret true
      /\ printed (events r)
         = [signature_error (fmt (iosbootfile (self (final r2))))]).
Proof.
  cbv zeta.
  pose proof (run_validation_trace s) as P. cbv zeta in P.
  destruct (connect_summary T s) as [_ [P1 _]].
  pose proof (sum_printed (proj1 (find_latest_iosxe_file_summary T
                                    (final (connect T s))))) as P2.
  set (s2 := final (find_latest_iosxe_file T (final (connect T s)))) in *.
  pose proof (sum_printed (proj1 (validate_boot_statement_summary T s2)))
    as P3.
  pose proof (validate_boot_statement_unchanged T s2) as U3.
  set (s3 := final (validate_boot_statement T s2)) in *.
  destruct (verify_ios_image_signature_effects T s3) as [_ P4].
  assert (PD : forall s', printed (events (disconnect T s')) = [])
    by (intros s'; apply disconnect_summary).
  destruct (step_ok (connect T s)).
  2: { left. destruct P as [_ [_ ->]]. now rewrite printed_app, P1. }
  destruct (step_ok (find_latest_iosxe_file T (final (connect T s)))).
  2: { left. destruct P as [_ [_ ->]]. unfold no_image_found.
       rewrite !printed_app, P1, P2, printed_log. apply PD. }
  destruct (step_ok (validate_boot_statement T s2)).
  2: { left. destruct P as [_ [_ ->]]. unfold boot_mismatch.
       rewrite !printed_app, P1, P2, P3, printed_log. apply PD. }
  destruct P as [Po [_ Pe]].
  assert (Hp : printed (events (run_validation T s))
               = printed (events (verify_ios_image_signature T s3))).
  { rewrite Pe, !printed_app, P1, P2, P3, PD. cbn [app].
    destruct (out (disconnect T (final (verify_ios_image_signature T s3))));
      [|now rewrite app_nil_r].
    destruct (verdict_is_a_record (hostname (self s))
                (step_ok (verify_ios_image_signature T s3))) as [-> _].
    now rewrite app_nil_r. }
  rewrite Hp. destruct P4 as [P4 | [O4 P4]]; [now left|].
  right. rewrite <- U3. repeat split; try assumption.
  rewrite Po, O4. unfold close_then.
  destruct (out (disconnect T _)); discriminate.
Qed.

(** X14.  A run never changes the target of the object.  When the session
    could not be opened, the object is exactly as before; when it was
    opened, the object still holds that session after the run has closed
    it. *)
Theorem run_keeps_target_and_session s :
  let r := run_validation T s in
  device (self (final r)) = device (self s)
  /\ hostname (self (final r)) = hostname (self s)
  /\ if step_ok (connect T s) then
       connection (self (final r))
       = connection (self (final (connect T s)))
       /\ connection (self (final r)) <> None
     else self (final r) = self s.
Proof.
  cbv zeta.
  pose proof (run_validation_trace s) as P. cbv zeta in P.
  pose proof (connect_effects T s) as E1.
  destruct (connect_summary T s) as [_ [_ [_ [_ K1]]]].
  destruct (find_latest_iosxe_file_summary T (final (connect T s)))
    as [S2 _].
  pose proof (find_latest_iosxe_file_effects T (final (connect T s))) as E2.
  set (s2 := final (find_latest_iosxe_file T (final (connect T s)))) in *.
  pose proof (validate_boot_statement_unchanged T s2) as U3.
  set (s3 := final (validate_boot_statement T s2)) in *.
  pose proof (verify_ios_image_signature_unchanged T s3) as U4.
  assert (UD : forall s', self (final (disconnect T s')) = self s')
    by (intros s'; apply disconnect_unchanged).
  destruct (step_ok (connect T s)) eqn:O1.
  2: { destruct P as [_ [-> _]]. rewrite (eff_failed E1 O1).
       repeat split. }
  destruct (K1 eq_refl) as [h Hc].
  assert (Hfin : self (final (run_validation T s)) = self s2
                 \/ self (final (run_validation T s)) = self s3
                 \/ self (final (run_validation T s))
                    = self (final (verify_ios_image_signature T s3))).
  { destruct (step_ok (find_latest_iosxe_file T (final (connect T s)))).
    - destruct (step_ok (validate_boot_statement T s2)).
      + destruct P as [_ [-> _]]. right. right. apply UD.
      + destruct P as [_ [-> _]]. right. left. apply UD.
    - destruct P as [_ [-> _]]. left. apply UD. }
  assert (Hsame : self (final (run_validation T s)) = self s2)
    by (destruct Hfin as [E | [E | E]]; rewrite E, ?U4, ?U3; reflexivity).
  rewrite Hsame. subst s3 s2.
  rewrite (eff_device E2), (eff_hostname E2), (eff_device E1),
    (eff_hostname E1), (sum_connection S2), Hc.
  repeat split. discriminate.
Qed.

(** X15.  In every run the listing and the configuration commands go out
    with the default timeout of the transport, and the verification
    command, alone, with a read timeout of 1000; a command is sent only
    when every step before it has passed. *)
Theorem only_verify_gets_the_long_timeout s :
  let r1 := connect T s in
  let r2 := find_latest_iosxe_file T (final r1) in
  let r3 := validate_boot_statement T (final r2) in
  let r := run_validation T s in
  sent (events r) =
  (if step_ok r1 then
     (dir_command, None) ::
     (if step_ok r2 then
        (show_command, None) ::
        (if step_ok r3 then
           [(verify_command (fmt (iosbootfile (self (final r2)))),
             Some 1000)]
         else [])
      else [])
   else []).
Proof.
  cbv zeta.
  pose proof (run_validation_trace s) as P. cbv zeta in P.
  pose proof (connect_sent s) as T1.
  destruct (connect_summary T s) as [_ [_ [_ [_ K1]]]].
  destruct (step_ok (connect T s)) eqn:O1.
  2: { destruct P as [_ [_ ->]]. now rewrite sent_app, T1. }
  destruct (K1 eq_refl) as [h Hc]. clear K1.
  pose proof (find_latest_iosxe_file_sent _ Hc) as T2.
  destruct (find_latest_iosxe_file_summary T (final (connect T s)))
    as [S2 F2].
  pose proof (sum_connection S2) as K2. rewrite Hc in K2.
  destruct (step_ok (find_latest_iosxe_file T (final (connect T s))))
    eqn:O2.
  2: { destruct P as [_ [_ ->]]. unfold no_image_found.
       now rewrite !sent_app, T1, T2, sent_log, disconnect_sent. }
  destruct (F2 eq_refl) as [f [Hf Hne]]. clear F2.
  set (s2 := final (find_latest_iosxe_file T (final (connect T s)))) in *.
  pose proof (validate_boot_statement_sent _ K2 Hf Hne) as T3.
  pose proof (validate_boot_statement_unchanged T s2) as U3.
  destruct (step_ok (validate_boot_statement T s2)) eqn:O3.
  2: { destruct P as [_ [_ ->]]. unfold boot_mismatch.
       now rewrite !sent_app, T1, T2, T3, sent_log, disconnect_sent. }
  set (s3 := final (validate_boot_statement T s2)) in *.
  assert (K3 : connection (self s3) = Some h) by now rewrite U3.
  assert (Hf3 : iosbootfile (self s3) = Some f) by now rewrite U3.
  pose proof (verify_ios_image_signature_sent _ K3 Hf3 Hne) as T4.
  destruct P as [_ [_ ->]].
  rewrite !sent_app, T1, T2, T3, T4, disconnect_sent, Hf.
  destruct (out (disconnect T _)); [|reflexivity].
  destruct (verdict_is_a_record (hostname (self s))
              (step_ok (verify_ios_image_signature T s3))) as [_ [-> _]].
  reflexivity.
Qed.

End RunCases.

(** X16.  A newly constructed object holds no session and no image, so
    until [connect] is called it cannot reach the device: each of the three
    checks returns [False] without sending anything, and [disconnect] makes
    no closing call. *)
Theorem new_object_is_inert (W H : Type) (T : Transport W H)
    (hn ip user pw : str) (w : W) :
  let s := {| self := init H hn ip user pw; world := w |} in
  (out (find_latest_iosxe_file T s) = Ret false
   /\ final (find_latest_iosxe_file T s) = s
   /\ events (find_latest_iosxe_file T s)
      = [Log ERROR
           (lit "Error finding latest IOS-XE file: "
            ++ lit "'NoneType' object has no attribute 'send_command'")])
  /\ (out (validate_boot_statement T s) = Ret false
      /\ final (validate_boot_statement T s) = s
      /\ sent (events (validate_boot_statement T s)) = [])
  /\ (out (verify_ios_image_signature T s) = Ret false
      /\ final (verify_ios_image_signature T s) = s
      /\ sent (events (verify_ios_image_signature T s)) = []
      /\ printed (events (verify_ios_image_signature T s)) = [])
  /\ disconnect T s = {| out := Ret tt; final := s; events := [] |}.
Proof.
  cbv zeta. split; [|split; [|split]].
  - unfold find_latest_iosxe_file, bind, try_except, get_self,
      call_send_command. simpl. repeat split.
  - rewrite validate_boot_statement_absent by reflexivity. repeat split.
  - rewrite verify_ios_image_signature_absent by reflexivity. repeat split.
  - now rewrite disconnect_eq.
Qed.

(** ** The properties on the sample devices *)

Lemma steps_without_session_fail_closed_witness :
  out (find_latest_iosxe_file good_router start) = Ret false
  /\ out (validate_boot_statement good_router start) = Ret false
  /\ out (verify_ios_image_signature good_router start) = Ret false.
Proof.
  destruct (@steps_without_session_fail_closed unit unit good_router start
              eq_refl) as [[F _] [[B _] [V _]]].
  repeat split; assumption.
Defined.

Lemma selected_image_is_written_in_listing_witness :
  exists f line,
    iosbootfile (self (final (find_latest_iosxe_file
                                (scripted (Ret tt)
                                   (router_reply two_images [] []) (Ret tt))
                                connected))) = Some f
    /\ In line (splitlines two_images)
    /\ contains f two_images = true.
Proof.
  destruct (@selected_image_is_written_in_listing unit unit
              (scripted (Ret tt) (router_reply two_images [] []) (Ret tt))
              connected tt tt two_images eq_refl eq_refl eq_refl)
    as [f [line [Hf [Hl [_ [_ [_ [_ Hc]]]]]]]].
  exists f, line. repeat split; assumption.
Defined.

Lemma selection_ignores_order_and_repetition_witness :
  out (find_latest_iosxe_file device_with_listing (connected_to two_images))
  = out (find_latest_iosxe_file device_with_listing
           (connected_to two_images_shuffled)).
Proof.
  refine (proj1 (@selection_ignores_order_and_repetition str unit
                   device_with_listing (connected_to two_images)
                   (connected_to two_images_shuffled) tt tt
                   two_images two_images_shuffled two_images
                   two_images_shuffled eq_refl eq_refl eq_refl eq_refl _)).
  intros c. vm_compute. split.
  - intros [<- | [<- | []]]; auto.
  - intros [<- | [<- | [<- | []]]]; auto.
Defined.

Lemma command_errors_are_absorbed_witness :
  out (verify_ios_image_signature verify_times_out
         (with_image (lit "router-boot-03.bin"))) = Ret false
  /\ out (find_latest_iosxe_file timing_out connected) = Ret false.
Proof.
  destruct (@command_errors_are_absorbed unit unit verify_times_out
              (with_image (lit "router-boot-03.bin")) tt eq_refl)
    as [_ [_ V]].
  destruct (@command_errors_are_absorbed unit unit timing_out connected tt
              eq_refl) as [F _].
  split.
  - rewrite (V (lit "router-boot-03.bin") tt
               (OtherException (lit "Pattern not detected")));
      [reflexivity | reflexivity | discriminate | reflexivity].
  - rewrite (F tt (OtherException (lit "Pattern not detected")));
      reflexivity.
Defined.

Lemma run_ignores_earlier_state_witness :
  out (run_validation good_router start)
  = out (run_validation good_router (with_image (lit "isr4300-16.09.01.bin"))).
Proof.
  refine (proj1 (@run_ignores_earlier_state unit unit good_router start
                   (with_image (lit "isr4300-16.09.01.bin")) _)).
  repeat split.
Defined.

Lemma run_result_from_device_answers_witness :
  out (run_validation good_router start) = Ret true
  /\ iosbootfile (self (final (run_validation good_router start)))
     = Some (lit "router-boot-03.bin").
Proof.
  destruct (@run_result_from_device_answers unit unit good_router start
              tt tt tt tt tt one_image good_config good_verification
              (lit "router-boot-03.bin") [])
    as [Ho [Hf _]];
    [reflexivity | reflexivity | reflexivity | reflexivity | reflexivity
     | intros w; exists w; reflexivity | ].
  split; [exact Ho | exact Hf].
Defined.

Lemma run_stops_without_image_witness :
  sent (events (run_validation
                  (scripted (Ret tt)
                     (router_reply no_images good_config good_verification)
                     (Ret tt))
                  start))
  = [(dir_command, None)].
Proof.
  refine (proj1 (proj2 (@run_stops_without_image unit unit
                          (scripted (Ret tt)
                             (router_reply no_images good_config
                                good_verification)
                             (Ret tt))
                          start tt tt tt no_images eq_refl eq_refl _))).
  intros line Hin. vm_compute in Hin.
  destruct Hin as [<- | [<- | [<- | []]]]; reflexivity.
Defined.

Lemma run_passes_iff_log_has_no_error_witness :
  true = true <-> errors (events (run_validation good_router start)) = [].
Proof.
  exact (@run_passes_iff_log_has_no_error unit unit good_router start true
           eq_refl).
Defined.

End Coverage.
